(** * AnimalRescuer: the GoFundMe collection pipeline

    A shallow embedding of the three Python modules of the repository

      - [gofundme_scraper_show_more.py]  (class [GoFundMeFinalScraper])
      - [gofundme_scraper.py]            (class [GoFundMeScraper])
      - [image_analyzer.py]              (class [ImageAnalyzer])

    Python [str] values are lists of characters; the characters are the
    code points below 256, so [\d] is [0-9] and [\s] is the white space of
    that range.  The browser, the HTTP session and the vision service are
    oracles: what a lookup returns is an input of the model, and a lookup
    that raises is [None]. *)

From Stdlib Require Import Ascii String List ZArith Lia Bool Arith Permutation.
From Stdlib Require Import DecimalString DecimalPos.
Import ListNotations.

Set Implicit Arguments.
Open Scope list_scope.

(** ** Python strings *)

Definition str := list ascii.

Definition lit (s : string) : str := list_ascii_of_string s.

Definition chr_eqb (a b : ascii) : bool := Ascii.eqb a b.

Fixpoint str_eqb (s t : str) : bool :=
  match s, t with
  | [], [] => true
  | a :: s', b :: t' => chr_eqb a b && str_eqb s' t'
  | _, _ => false
  end.

(** [x in xs] on a list (or a set) of strings. *)
Definition mem (x : str) (xs : list str) : bool := existsb (str_eqb x) xs.

(** Character classes of the [re] module on code points below 256. *)
Definition code (c : ascii) : N := N_of_ascii c.

Definition is_digit (c : ascii) : bool :=
  ((48 <=? code c) && (code c <=? 57))%N.

Definition is_space (c : ascii) : bool :=
  (((9 <=? code c) && (code c <=? 13)) || ((28 <=? code c) && (code c <=? 32))
   || (code c =? 133) || (code c =? 160))%N.

Definition is_upper (c : ascii) : bool :=
  ((65 <=? code c) && (code c <=? 90))%N.

Definition is_lower (c : ascii) : bool :=
  ((97 <=? code c) && (code c <=? 122))%N.

Definition is_alpha (c : ascii) : bool := is_upper c || is_lower c.

(** [c.lower()] on the ASCII letters. *)
Definition to_lower (c : ascii) : ascii :=
  if is_upper c then ascii_of_N (code c + 32) else c.

Definition lower (s : str) : str := map to_lower s.

(** [needle in hay] on strings. *)
Fixpoint starts_with (p s : str) : bool :=
  match p, s with
  | [], _ => true
  | a :: p', b :: s' => chr_eqb a b && starts_with p' s'
  | _ :: _, [] => false
  end.

Fixpoint contains (needle hay : str) : bool :=
  starts_with needle hay ||
  match hay with
  | [] => false
  | _ :: hay' => contains needle hay'
  end.

(** [s.split(sep)[0]] for a one-character separator. *)
Fixpoint split_head (sep : ascii) (s : str) : str :=
  match s with
  | [] => []
  | a :: s' => if chr_eqb a sep then [] else a :: split_head sep s'
  end.

Fixpoint drop_while (p : ascii -> bool) (s : str) : str :=
  match s with
  | [] => []
  | a :: s' => if p a then drop_while p s' else s
  end.

(** [s.rstrip(chars)], [s.lstrip()] and [s.strip()]. *)
Definition rstrip_by (p : ascii -> bool) (s : str) : str :=
  rev (drop_while p (rev s)).

Definition strip (s : str) : str := rstrip_by is_space (drop_while is_space s).

(** [l[:n]] for a Python integer [n]: a negative bound counts from the end. *)
Definition slice_to {A} (n : Z) (l : list A) : list A :=
  if (0 <=? n)%Z then firstn (Z.to_nat n) l
  else firstn (length l - Z.to_nat (- n)) l.

(** [bool(s)] of a string. *)
Definition nonempty (s : str) : bool :=
  match s with [] => false | _ => true end.

(** ** URL canonicalization ([extract_visible_urls], line 96)

    [clean_url = href.split('?')[0].rstrip('/')] *)

Definition slash : ascii := "/"%char.
Definition qmark : ascii := "?"%char.

Definition clean_url (href : str) : str :=
  rstrip_by (chr_eqb slash) (split_head qmark href).

Definition no_query (u : str) : Prop := ~ In qmark u.
Definition no_trailing_slash (u : str) : Prop := forall v, u <> v ++ [slash].

(** ** The URL frontier ([self.campaign_urls], a Python [set])

    The set is represented by its insertion log: the distinct elements in
    the order they were first added.  Membership, [add] and [len] do not
    depend on that order.  Iterating a [set] does not follow it either: the
    order [list(s)] enumerates the elements in is [set_iter], some
    rearrangement of the log that the interpreter's hashing decides. *)

Definition set_add (u : str) (s : list str) : list str :=
  if mem u s then s else s ++ [u].

(** [for u in new_urls: self.campaign_urls.add(u)] *)
Definition add_all (new_urls : list str) (s : list str) : list str :=
  fold_left (fun acc u => set_add u acc) new_urls s.

Definition len {A} (l : list A) : Z := Z.of_nat (length l).

(** [extract_visible_urls]: the [href] of every link found, [None] when the
    attribute is missing or reading it raises; [None] for the whole list
    when [find_elements] raises. *)
Definition visible_step (urls : list str) (href : option str) : list str :=
  match href with
  | Some h =>
      if nonempty h && contains (lit "/f/") h then
        let clean := clean_url h in
        if mem clean urls then urls else urls ++ [clean]
      else urls
  | None => urls
  end.

Definition extract_visible_urls (links : option (list (option str))) : list str :=
  match links with
  | Some ls => fold_left visible_step ls []
  | None => []
  end.

Definition nonempty_list {A} (l : list A) : bool :=
  match l with [] => false | _ => true end.

(** *** The discovery loop of [collect_all_urls] *)

Record loop_state := mk_loop_state {
  campaign_urls : list str;
  attempts : nat;
  no_new_count : nat
}.

Inductive outcome :=
| Capped      (* the target was reached *)
| Exhausted   (* three strikes without a new URL *)
| Budget.     (* [attempts] went past 100 *)

Definition new_urls_of (visible_urls : list str) (st : loop_state) : list str :=
  filter (fun u => negb (mem u (campaign_urls st))) visible_urls.

(** One pass through the body of the [while]; [None] means the loop goes on
    (after [click_show_more] and [attempts += 1]). *)
Definition loop_body (max_campaigns : Z) (visible_urls : list str)
    (st : loop_state) : loop_state * option outcome :=
  let new_urls := new_urls_of visible_urls st in
  let st1 :=
    if nonempty_list new_urls
    then mk_loop_state (add_all new_urls (campaign_urls st)) (attempts st) 0
    else mk_loop_state (campaign_urls st) (attempts st) (S (no_new_count st)) in
  if (max_campaigns <=? len (campaign_urls st1))%Z then (st1, Some Capped)
  else if 3 <=? no_new_count st1 then (st1, Some Exhausted)
  else (mk_loop_state (campaign_urls st1) (S (attempts st1)) (no_new_count st1),
        None).

Definition loop_guard (max_campaigns : Z) (st : loop_state) : bool :=
  (len (campaign_urls st) <? max_campaigns)%Z && (attempts st <=? 100).

(** The [while] loop.  [page k] is what the listing shows at the read made
    when [attempts = k].  The result carries, for every iteration run, the
    number of new URLs it found. *)
Fixpoint collect_loop (fuel : nat) (max_campaigns : Z)
    (page : nat -> option (list (option str))) (st : loop_state)
    : option (loop_state * outcome * list nat) :=
  if loop_guard max_campaigns st then
    match fuel with
    | O => None
    | S fuel' =>
        let visible_urls := extract_visible_urls (page (attempts st)) in
        let n := length (new_urls_of visible_urls st) in
        match loop_body max_campaigns visible_urls st with
        | (st', Some o) => Some (st', o, [n])
        | (st', None) =>
            match collect_loop fuel' max_campaigns page st' with
            | Some (st'', o, log) => Some (st'', o, n :: log)
            | None => None
            end
        end
    end
  else
    Some (st,
          if (max_campaigns <=? len (campaign_urls st))%Z then Capped else Budget,
          []).

Definition loop_fuel : nat := 102.

Definition initial_state (urls0 : list str) : loop_state :=
  mk_loop_state urls0 0 0.

(** [list(self.campaign_urls)[:max_campaigns]] *)
Definition snapshot (set_iter : list str -> list str) (max_campaigns : Z)
    (s : list str) : list str :=
  slice_to max_campaigns (set_iter s).


(** Iterations [i .. i+k-1] of a run each found no new URL. *)
Definition zeros_at (log : list nat) (i k : nat) : Prop :=
  forall j, j < k -> nth_error log (i + j) = Some 0.

(** ** Regular expressions: the part of [re] the scrapers use

    A backtracking matcher.  [m r s c] lists, in the order [re] tries them,
    the ways [r] can match a prefix of [s]: what is left of [s], and the
    capture groups.  [re.search] takes the first way at the leftmost
    position that has one. *)

Inductive regex :=
| Cls (p : ascii -> bool)     (* one character of a class *)
| Eps
| Cat (r1 r2 : regex)
| Alt (r1 r2 : regex)         (* r1|r2, r1 tried first *)
| Star (r : regex)            (* r*, greedy *)
| Grp (n : nat) (r : regex).  (* capture group number n *)

Definition Plus (r : regex) : regex := Cat r (Star r).
Definition Opt (r : regex) : regex := Alt r Eps.
Definition Seq (rs : list regex) : regex := fold_right Cat Eps rs.
Definition Alts (rs : list regex) : regex :=
  match rs with
  | [] => Cls (fun _ => false)
  | r :: rs' => fold_left Alt rs' r
  end.
Fixpoint Times (n : nat) (r : regex) : regex :=
  match n with O => Eps | S n' => Cat r (Times n' r) end.

(** A literal character, as written and under [re.IGNORECASE]. *)
Definition Chr (c : ascii) : regex := Cls (chr_eqb c).
Definition ChrI (c : ascii) : regex :=
  Cls (fun a => chr_eqb (to_lower a) (to_lower c)).
Definition Word (s : string) : regex := Seq (map Chr (lit s)).
Definition WordI (s : string) : regex := Seq (map ChrI (lit s)).

Definition caps := list (nat * str).

Definition star_loop (f : str -> caps -> list (str * caps))
  : nat -> str -> caps -> list (str * caps) :=
  fix loop (n : nat) (s : str) (c : caps) {struct n} :=
    match n with
    | O => [(s, c)]
    | S n' =>
        flat_map (fun x => if length (fst x) <? length s
                           then loop n' (fst x) (snd x) else [])
                 (f s c)
        ++ [(s, c)]
    end.

Fixpoint m (r : regex) (s : str) (c : caps) {struct r} : list (str * caps) :=
  match r with
  | Cls p =>
      match s with
      | a :: s' => if p a then [(s', c)] else []
      | [] => []
      end
  | Eps => [(s, c)]
  | Cat r1 r2 => flat_map (fun x => m r2 (fst x) (snd x)) (m r1 s c)
  | Alt r1 r2 => m r1 s c ++ m r2 s c
  | Star r' => star_loop (m r') (S (length s)) s c
  | Grp n r' =>
      map (fun x => (fst x, (n, firstn (length s - length (fst x)) s) :: snd x))
          (m r' s c)
  end.

(** A match object: where the match starts, the text matched, the rest of
    the string, the groups. *)
Record match_obj := mk_match {
  m_start : nat;
  m_text : str;
  m_rest : str;
  m_caps : caps
}.

Fixpoint lookup_group (n : nat) (c : caps) : option str :=
  match c with
  | [] => None
  | (k, w) :: c' => if k =? n then Some w else lookup_group n c'
  end.

(** [mo.group(n)] of a group that took part in the match. *)
Definition group (n : nat) (mo : match_obj) : str :=
  match lookup_group n (m_caps mo) with Some w => w | None => [] end.

Definition match_at (r : regex) (pos : nat) (s : str) : option match_obj :=
  match m r s [] with
  | (rest, c) :: _ => Some (mk_match pos (firstn (length s - length rest) s) rest c)
  | [] => None
  end.

Fixpoint search_from (r : regex) (pos : nat) (s : str) : option match_obj :=
  match match_at r pos s with
  | Some mo => Some mo
  | None =>
      match s with
      | [] => None
      | _ :: s' => search_from r (S pos) s'
      end
  end.

(** [re.search(r, s)] *)
Definition search (r : regex) (s : str) : option match_obj := search_from r 0 s.

(** [re.findall(r, s)] for a pattern without groups whose matches are not
    empty: the matches from left to right, each search resuming where the
    last match ended. *)
Fixpoint findall_from (fuel : nat) (r : regex) (s : str) : list str :=
  match fuel with
  | O => []
  | S fuel' =>
      match match_at r 0 s with
      | Some mo =>
          match m_text mo with
          | [] => match s with [] => [] | _ :: s' => findall_from fuel' r s' end
          | _ :: _ => m_text mo :: findall_from fuel' r (m_rest mo)
          end
      | None => match s with [] => [] | _ :: s' => findall_from fuel' r s' end
      end
  end.

Definition findall (r : regex) (s : str) : list str :=
  findall_from (S (length s)) r s.

(** The words a pattern denotes. *)
Inductive Matches : regex -> str -> Prop :=
| MCls p a : p a = true -> Matches (Cls p) [a]
| MEps : Matches Eps []
| MCat r1 r2 w1 w2 :
    Matches r1 w1 -> Matches r2 w2 -> Matches (Cat r1 r2) (w1 ++ w2)
| MAltL r1 r2 w : Matches r1 w -> Matches (Alt r1 r2) w
| MAltR r1 r2 w : Matches r2 w -> Matches (Alt r1 r2) w
| MStar0 r : Matches (Star r) []
| MStarS r w1 w2 :
    w1 <> [] -> Matches r w1 -> Matches (Star r) w2 ->
    Matches (Star r) (w1 ++ w2)
| MGrp n r w : Matches r w -> Matches (Grp n r) w.

(** [text] has a part that the pattern matches. *)
Definition has_match (r : regex) (text : str) : Prop :=
  exists pre w post, text = pre ++ w ++ post /\ Matches r w.

(** *** The patterns of the source *)

Definition digit : regex := Cls is_digit.
Definition space : regex := Cls is_space.

(** [r'(\d+)\s*hrs?\s+ago'], [re.IGNORECASE] *)
Definition hours_re : regex :=
  Seq [Grp 1 (Plus digit); Star space; WordI "hr"; Opt (ChrI "s");
       Plus space; WordI "ago"].

(** [r'(\d+)\s*d(?:ays?)?\s+ago'], [re.IGNORECASE] *)
Definition days_re : regex :=
  Seq [Grp 1 (Plus digit); Star space; ChrI "d";
       Opt (Seq [WordI "ay"; Opt (ChrI "s")]); Plus space; WordI "ago"].

(** [r'Created\s+([A-Za-z]+)\s+(\d+)(?:st|nd|rd|th)?,?\s+(\d{4})'] *)
Definition date_re : regex :=
  Seq [Word "Created"; Plus space; Grp 1 (Plus (Cls is_alpha)); Plus space;
       Grp 2 (Plus digit);
       Opt (Alts [Word "st"; Word "nd"; Word "rd"; Word "th"]);
       Opt (Chr ","); Plus space; Grp 3 (Times 4 digit)].

(** [r'\$[\d,]+'] *)
Definition amount_re : regex :=
  Seq [Chr "$"; Plus (Cls (fun c => is_digit c || chr_eqb c ","))].

(** ** Numbers and dates *)

(** [str(n)] of an integer. *)
Definition str_of_Z (z : Z) : str := lit (NilZero.string_of_int (Z.to_int z)).

Definition digit_value (c : ascii) : Z := Z.of_N (code c) - 48.

Definition int_of_digits (s : str) : Z :=
  fold_left (fun acc c => 10 * acc + digit_value c)%Z s 0%Z.

(** [sys.get_int_max_str_digits()]: the most digits [int] converts, as
    CPython 3.11 and later set it by default. *)
Definition int_max_str_digits : nat := 4300.

(** [int(s)]: optional white space around an optional sign and decimal
    digits, no more of them than [int_max_str_digits]; [None] is
    [ValueError].  (Underscores between digits are left out: no caller
    passes one.) *)
Definition py_int (s : str) : option Z :=
  let unsigned (t : str) :=
    if nonempty t && forallb is_digit t && (length t <=? int_max_str_digits)
    then Some (int_of_digits t) else None in
  match strip s with
  | c :: t =>
      if chr_eqb c "-" then option_map Z.opp (unsigned t)
      else if chr_eqb c "+" then unsigned t
      else unsigned (c :: t)
  | [] => None
  end.

Record date := mk_date { year : Z; month : Z; day : Z }.

Definition is_leap (y : Z) : bool :=
  ((y mod 4 =? 0) && (negb (y mod 100 =? 0) || (y mod 400 =? 0)))%Z.

Definition days_in_month (y mo : Z) : Z :=
  match mo with
  | 1 | 3 | 5 | 7 | 8 | 10 | 12 => 31
  | 4 | 6 | 9 | 11 => 30
  | 2 => if is_leap y then 29 else 28
  | _ => 0
  end%Z.

Definition days_before_year (y : Z) : Z :=
  let y1 := (y - 1)%Z in (y1 * 365 + y1 / 4 - y1 / 100 + y1 / 400)%Z.

Definition days_before_month (y mo : Z) : Z :=
  (match mo with
   | 1 => 0 | 2 => 31 | 3 => 59 | 4 => 90 | 5 => 120 | 6 => 151
   | 7 => 181 | 8 => 212 | 9 => 243 | 10 => 273 | 11 => 304 | 12 => 334
   | _ => 0
   end + if (2 <? mo) && is_leap y then 1 else 0)%Z.

(** [date.toordinal()] *)
Definition toordinal (d : date) : Z :=
  (days_before_year (year d) + days_before_month (year d) (month d) + day d)%Z.

(** The dates [datetime(y, mo, d)] accepts. *)
Definition valid_date (d : date) : bool :=
  ((1 <=? year d) && (year d <=? 9999) && (1 <=? month d) && (month d <=? 12)
   && (1 <=? day d) && (day d <=? days_in_month (year d) (month d)))%Z.

(** [d1 < d2] on dates. *)
Definition date_ltb (d1 d2 : date) : bool :=
  ((year d1 <? year d2)
   || ((year d1 =? year d2)
       && ((month d1 <? month d2)
           || ((month d1 =? month d2) && (day d1 <? day d2)))))%Z.

(** *** [datetime.strptime(s, "%B %d, %Y")]

    As the library does it: the format becomes a pattern (month names of
    the C locale, longest first; [\s+] for a blank), matched at the start
    of [s] ignoring case; the match must use up [s], and the fields must
    form a date. *)

Definition month_names : list string :=
  ["january"; "february"; "march"; "april"; "may"; "june"; "july"; "august";
   "september"; "october"; "november"; "december"]%string.

Definition in_range (lo hi : N) : regex :=
  Cls (fun c => (lo <=? code c) && (code c <=? hi))%N.

Definition strptime_B : regex :=
  Alts (map WordI
    ["september"; "february"; "november"; "december"; "january"; "october";
     "august"; "march"; "april"; "june"; "july"; "may"]%string).

(** [3[0-1]|[1-2]\d|0[1-9]|[1-9]| [1-9]] *)
Definition strptime_d : regex :=
  Alts [Seq [Chr "3"; in_range 48 49]; Seq [in_range 49 50; digit];
        Seq [Chr "0"; in_range 49 57]; in_range 49 57;
        Seq [Chr " "; in_range 49 57]].

Definition strptime_re : regex :=
  Seq [Grp 1 strptime_B; Plus space; Grp 2 strptime_d; Chr ","; Plus space;
       Grp 3 (Times 4 digit)].

Fixpoint index_of (x : str) (l : list string) (i : Z) : option Z :=
  match l with
  | [] => None
  | y :: l' => if str_eqb x (lit y) then Some i else index_of x l' (i + 1)%Z
  end.

Definition strptime_BdY (data_string : str) : option date :=
  match match_at strptime_re 0 data_string with
  | Some found =>
      if nonempty (m_rest found) then None   (* unconverted data remains *)
      else
        match index_of (lower (group 1 found)) month_names 1,
              py_int (group 2 found), py_int (group 3 found) with
        | Some mo, Some d, Some y =>
            let created := mk_date y mo d in
            if valid_date created then Some created else None
        | _, _, _ => None
        end
  | None => None
  end.

(** ** [GoFundMeFinalScraper]: what the browser shows of a campaign page

    Each field is the outcome of one [find_element] lookup, [None] when it
    raises.  An attribute read gives [Some None] when the element is there
    and the attribute is not. *)
Record page := mk_page {
  body_text : option str;              (* the text of [body] *)
  og_image : option (option str);      (* meta og:image, its [content] *)
  desc_primary : option str;           (* div[class*="o-campaign-description"] *)
  desc_secondary : option str;         (* div[class*="campaign-description"] *)
  og_description : option (option str);(* meta og:description, its [content] *)
  byline_created : option str          (* span.m-campaign-byline-created *)
}.

Definition unknown : str := lit "Unknown".

(** [today = datetime(2025, 10, 26)] *)
Definition today : date := mk_date 2025 10 26.

(** [f"{month_name} {day}, {year}"] *)
Definition date_str (date_match : match_obj) : str :=
  group 1 date_match ++ lit " " ++ group 2 date_match ++ lit ", "
  ++ group 3 date_match.

(** Lines 192-217 of [extract_days_running], on the text found. *)
Definition days_of_text (text : str) : str :=
  match search hours_re text with
  | Some _ => lit "0"
  | None =>
      match search days_re text with
      | Some days_match => group 1 days_match
      | None =>
          match search date_re text with
          | Some date_match =>
              match strptime_BdY (date_str date_match) with
              | Some created_date =>
                  let days_diff := (toordinal today - toordinal created_date)%Z in
                  if (0 <=? days_diff)%Z then str_of_Z days_diff else unknown
              | None => unknown
              end
          | None => unknown
          end
      end
  end.

(** The text the rules run on: the byline element, else the page body. *)
Definition created_text (pg : page) : option str :=
  match byline_created pg with
  | Some t => Some (strip t)
  | None => body_text pg
  end.

Definition extract_days_running (pg : page) : str :=
  match created_text pg with
  | Some text => days_of_text text
  | None => unknown
  end.

(** The text has a relative-hours phrase. *)
Definition has_hours_phrase (text : str) : Prop := has_match hours_re text.

(** The text names an absolute date that [strptime] parses. *)
Definition has_absolute_date (text : str) : Prop :=
  exists date_match created,
    search date_re text = Some date_match /\
    strptime_BdY (date_str date_match) = Some created.

(** ** Python values and dictionaries

    A [dict] is the list of its items in insertion order, with distinct
    keys. *)

#[local] Set Warnings "-register-all".

Inductive pyval :=
| PNone
| PBool (b : bool)
| PInt (z : Z)
| PStr (s : str)
| PList (l : list pyval)
| PDict (d : list (str * pyval)).

Definition dict := list (str * pyval).

(** [d.get(k)] *)
Fixpoint dict_get (k : str) (d : dict) : option pyval :=
  match d with
  | [] => None
  | (k', v) :: d' => if str_eqb k k' then Some v else dict_get k d'
  end.

(** [d.get(k, default)] *)
Definition dict_get_default (k : str) (default : pyval) (d : dict) : pyval :=
  match dict_get k d with Some v => v | None => default end.

(** [d[k] = v] *)
Fixpoint dict_set (k : str) (v : pyval) (d : dict) : dict :=
  match d with
  | [] => [(k, v)]
  | (k', v') :: d' =>
      if str_eqb k k' then (k, v) :: d' else (k', v') :: dict_set k v d'
  end.

Definition keys (d : dict) : list str := map fst d.

(** [bool(v)] *)
Definition truthy (v : pyval) : bool :=
  match v with
  | PNone => false
  | PBool b => b
  | PInt z => negb (z =? 0)%Z
  | PStr s => nonempty s
  | PList l => nonempty_list l
  | PDict d => nonempty_list d
  end.

(** ** [GoFundMeFinalScraper.extract_campaign_details] *)

(** [a.replace('$', '').replace(',', '')] *)
Definition strip_amount (a : str) : str :=
  filter (fun c => negb (chr_eqb c "$") && negb (chr_eqb c ",")) a.

(** [[int(...) for a in amounts]]: [None] when one [int] raises. *)
Fixpoint amounts_numeric (amounts : list str) : option (list Z) :=
  match amounts with
  | [] => Some []
  | a :: rest =>
      match py_int (strip_amount a), amounts_numeric rest with
      | Some n, Some ns => Some (n :: ns)
      | _, _ => None
      end
  end.

(** [max(l)] of a list that is not empty. *)
Definition max_of (l : list Z) : Z :=
  match l with
  | [] => 0%Z
  | x :: l' => fold_left Z.max l' x
  end.

(** Lines 243-251: the field [amount_raised]. *)
Definition amount_raised (page_text : str) : str :=
  let amounts := findall amount_re page_text in
  if nonempty_list amounts then
    match amounts_numeric amounts with
    | Some ns => str_of_Z (max_of ns)
    | None => lit "0"           (* [except:] *)
    end
  else lit "0".

(** Lines 261-274: the loop over [desc_selectors].  A candidate is what the
    selector's lookup gave: [None] when it raised, [Some None] for a missing
    [content] attribute. *)
Fixpoint desc_loop (cands : list (option (option str)))
    (description : option str) : option str :=
  match cands with
  | [] => description
  | None :: rest => desc_loop rest description
  | Some found :: rest =>
      match found with
      | Some s => if nonempty s && (20 <? length s) then found
                  else desc_loop rest found
      | None => desc_loop rest found
      end
  end.

Definition desc_candidates (pg : page) : list (option (option str)) :=
  [option_map (fun t => Some (strip t)) (desc_primary pg);
   option_map (fun t => Some (strip t)) (desc_secondary pg);
   og_description pg].

(** Line 276: [description[:500] if description else ''] *)
Definition description_of (pg : page) : str :=
  match desc_loop (desc_candidates pg) (Some []) with
  | Some s => firstn 500 s
  | None => []
  end.

Definition image_url_of (pg : page) : pyval :=
  match og_image pg with
  | Some (Some s) => PStr s
  | Some None => PNone
  | None => PStr []
  end.

(** The record of the [except Exception] branch. *)
Definition default_record (url : str) : dict :=
  [(lit "url", PStr url); (lit "image_url", PStr []);
   (lit "amount_raised", PStr (lit "0")); (lit "description", PStr []);
   (lit "days_running", PStr unknown)].

(** [fetched] is what [driver.get(url)] led to: [None] when it raised. *)
Definition extract_campaign_details (fetched : option page) (url : str) : dict :=
  match fetched with
  | None => default_record url
  | Some pg =>
      match body_text pg with
      | None => default_record url
      | Some page_text =>
          let data := [(lit "url", PStr url)] in
          let data := dict_set (lit "image_url") (image_url_of pg) data in
          let data := dict_set (lit "amount_raised")
                               (PStr (amount_raised page_text)) data in
          let data := dict_set (lit "description") (PStr (description_of pg)) data in
          dict_set (lit "days_running") (PStr (extract_days_running pg)) data
      end
  end.

(** ** [GoFundMeFinalScraper.extract_all_details]

    Where a [KeyboardInterrupt] reaches the loop while it handles a URL:
    not at all; inside [extract_campaign_details], before the record is
    appended; or in [random_delay], after it.  (A signal raised inside one
    of the bare [except:] lookups is absorbed there, as that lookup's
    failure, and the loop goes on: for the loop it is [Quiet], with [None]
    in the page.) *)
Inductive signal := Quiet | SigExtract | SigDelay.

(** The loop from URL number [i] on.  Returns [self.campaigns] and whether
    the [except KeyboardInterrupt] branch ran. *)
Fixpoint extract_all_details (fetch : nat -> str -> option page)
    (sig : nat -> signal) (i : nat) (urls : list str) (campaigns : list dict)
    : list dict * bool :=
  match urls with
  | [] => (campaigns, false)
  | url :: rest =>
      match sig i with
      | SigExtract => (campaigns, true)
      | SigDelay =>
          (campaigns ++ [extract_campaign_details (fetch i url) url], true)
      | Quiet =>
          extract_all_details fetch sig (S i) rest
            (campaigns ++ [extract_campaign_details (fetch i url) url])
      end
  end.

(** The records of the URLs [urls], numbered from [i], in order. *)
Fixpoint details_of (fetch : nat -> str -> option page) (i : nat)
    (urls : list str) : list dict :=
  match urls with
  | [] => []
  | url :: rest =>
      extract_campaign_details (fetch i url) url :: details_of fetch (S i) rest
  end.



(** ** [GoFundMeScraper.get_campaign_details]

    What [BeautifulSoup] finds in the fetched page.  [json.loads] is the
    library's: [ld_json] holds the value it returned, [Some None] when it
    raised. *)
Record soup := mk_soup {
  ld_json : option (option pyval);     (* script type=application/ld+json *)
  desc_elem : option str;              (* div class description|story, stripped text *)
  date_elem : option (option str);     (* text Created|Started: its parent's text *)
  meta_published : option (option str) (* meta article:published_time, its content *)
}.

(** A naive [datetime]: a date and the microsecond of the day. *)
Record datetime := mk_datetime { dt_date : date; dt_usec : Z }.

Definition usec_per_day : Z := 86400000000.

(** Microseconds since the start of day 0. *)
Definition timestamp (t : datetime) : Z :=
  (toordinal (dt_date t) * usec_per_day + dt_usec t)%Z.

(** [(a - b).days]: a [timedelta] is normalized with floor division. *)
Definition delta_days (a b : datetime) : Z :=
  ((timestamp a - timestamp b) / usec_per_day)%Z.

(** [s.replace('Z', '+00:00')] *)
Definition replace_Z (s : str) : str :=
  flat_map (fun c => if chr_eqb c "Z" then lit "+00:00" else [c]) s.

(** Lines 96-111: the field [description]. *)
Definition description_field (sp : soup) : pyval :=
  let from_json :=
    match ld_json sp with
    | Some (Some (PDict structured_data)) =>
        Some (dict_get_default (lit "description") (PStr []) structured_data)
    | _ => None   (* no script, [json.loads] raised, or no [.get] *)
    end in
  match from_json with
  | Some v => if truthy v then v
              else match desc_elem sp with
                   | Some t => PStr (firstn 500 t)
                   | None => PStr []
                   end
  | None => match desc_elem sp with
            | Some t => PStr (firstn 500 t)
            | None => PStr []
            end
  end.

Section Details.

(** [datetime.fromisoformat], with the zone dropped by
    [.replace(tzinfo=None)]; [None] when it raises.  [now] is
    [datetime.now()]. *)
Variable fromisoformat : str -> option datetime.
Variable now : datetime.

(** Lines 124-135: the field [days_running]. *)
Definition days_running_field (sp : soup) : pyval :=
  match meta_published sp with
  | Some (Some created_date) =>
      match fromisoformat (replace_Z created_date) with
      | Some created => PInt (delta_days now created)
      | None => PStr unknown
      end
  | Some None => PStr unknown     (* [None.replace] raises *)
  | None => PStr unknown
  end.

(** [response] is [None] when the request raised. *)
Definition get_campaign_details (response : option soup) : dict :=
  match response with
  | None => []
  | Some sp =>
      let details := dict_set (lit "description") (description_field sp) [] in
      let details :=
        match date_elem sp with
        | Some (Some date_text) => dict_set (lit "created_date") (PStr date_text) details
        | Some None => details
        | None => dict_set (lit "created_date") (PStr unknown) details
        end in
      dict_set (lit "days_running") (days_running_field sp) details
  end.

End Details.

(** ** [ImageAnalyzer]

    The state threaded through [process_campaigns] is the log of the image
    URLs handed to the vision service; a computation returns a value or
    raises. *)

Inductive result (A : Type) :=
| Ok (a : A)
| Raise (e : str).
Arguments Ok {A} a.
Arguments Raise {A} e.

Definition M (A : Type) : Type := list str -> list str * result A.

Definition ret {A} (a : A) : M A := fun calls => (calls, Ok a).

Definition raise {A} (e : string) : M A := fun calls => (calls, Raise (lit e)).

Definition bind {A B} (x : M A) (f : A -> M B) : M B :=
  fun calls =>
    match x calls with
    | (calls', Ok a) => f a calls'
    | (calls', Raise e) => (calls', Raise e)
    end.

Notation "x <- c1 ;; c2" := (bind c1 (fun x => c2))
  (at level 61, c1 at next level, right associativity).

Section ImageAnalyzer.

(** The vision service behind [analyze_image_google]: whether the request
    went through, and the other items of the result it builds.  [service]
    is [self.service]. *)
Variable vision : str -> bool * dict.
Variable service : str.

(** Both branches of [analyze_image_google] return a dict with a
    ["success"] item; the call is logged. *)
Definition analyze_image_google (image_url : str) : M pyval :=
  fun calls =>
    let (success, items) := vision image_url in
    (calls ++ [image_url], Ok (PDict ((lit "success", PBool success) :: items))).

Definition invalid_url_result : pyval :=
  PDict [(lit "success", PBool false); (lit "error", PStr (lit "Invalid image URL"))].

Definition no_url_result : pyval :=
  PDict [(lit "success", PBool false); (lit "error", PStr (lit "No image URL"))].

Definition analyze_image (image_url : pyval) : M pyval :=
  if negb (truthy image_url) then ret invalid_url_result
  else
    match image_url with
    | PStr s =>
        if negb (starts_with (lit "http") s) then ret invalid_url_result
        else if str_eqb service (lit "google") then analyze_image_google s
        else if str_eqb service (lit "azure")
             then raise "AttributeError"    (* no [analyze_image_azure] *)
             else ret PNone
    | _ => raise "AttributeError"           (* no [startswith] *)
    end.

(** [analysis['success']] *)
Definition read_success (analysis : pyval) : M pyval :=
  match analysis with
  | PDict d =>
      match dict_get (lit "success") d with
      | Some v => ret v
      | None => raise "KeyError"
      end
  | _ => raise "TypeError"
  end.

End ImageAnalyzer.

(** The spec's reading of the amount: the largest of the [$digits] tokens,
    a token's value being its digits (commas removed); ["0"] without one. *)
Definition largest_dollar_figure (page_text : str) : str :=
  let tokens := filter (existsb is_digit) (findall amount_re page_text) in
  if nonempty_list tokens
  then str_of_Z (max_of (map (fun a => int_of_digits (strip_amount a)) tokens))
  else lit "0".

(** The spec's age normalizer (section 4.2): the rules in its order, hours,
    days, absolute date, then the publication timestamp of the page's
    metadata, [published], when none of the first three matched. *)
Definition normalize_age_spec (text : str) (published : option date) : str :=
  let age_since (created : date) :=
    let days_diff := (toordinal today - toordinal created)%Z in
    if (0 <=? days_diff)%Z then str_of_Z days_diff else unknown in
  match search hours_re text with
  | Some _ => lit "0"
  | None =>
      match search days_re text with
      | Some days_match => group 1 days_match
      | None =>
          match search date_re text with
          | Some date_match =>
              match strptime_BdY (date_str date_match) with
              | Some created => age_since created
              | None => unknown
              end
          | None =>
              match published with
              | Some created => age_since created
              | None => unknown
              end
          end
      end
  end.

(** The spec's reading of the description: a description that comes from
    the page's metadata is kept as it is, and only the text of a plain
    element is cut to 500 characters. *)
Definition description_spec (metadata element : option str) : str :=
  match metadata with
  | Some description => description
  | None =>
      match element with
      | Some t => firstn 500 t
      | None => []
      end
  end.

(** A call that reaches the vision service carries a URL that is not empty
    and begins with [http]. *)
Definition real_url (u : str) : Prop :=
  nonempty u = true /\ starts_with (lit "http") u = true.

(** The pattern has no capture group number [n]. *)
Fixpoint no_grp (n : nat) (r : regex) : bool :=
  match r with
  | Cls _ | Eps => true
  | Cat r1 r2 | Alt r1 r2 => no_grp n r1 && no_grp n r2
  | Star r' => no_grp n r'
  | Grp k r' => negb (k =? n) && no_grp n r'
  end.

(** A string of decimal digits, at least one. *)
Definition is_number (s : str) : bool := nonempty s && forallb is_digit s.

(** A candidate of the description loop that ends it: a text of more than
    20 characters. *)
Definition long_enough (cand : option (option str)) : bool :=
  match cand with
  | Some (Some s) => nonempty s && (20 <? length s)
  | _ => false
  end.

(** The value the description loop is left with when no candidate ends it:
    that of the last lookup that did not raise. *)
Definition last_found (cands : list (option (option str)))
    (description : option str) : option str :=
  fold_left (fun d cand => match cand with Some v => v | None => d end)
            cands description.

(** ** [GoFundMeScraper.extract_campaign_data]

    What [BeautifulSoup] finds in one campaign card.  A tag that is found
    counts as true; an attribute read gives [None] when the attribute is
    missing. *)
Record card := mk_card {
  card_link : option (option str);        (* a class=...Campaign...: its href *)
  card_img : option (option str * option str);  (* img: src, data-src *)
  card_title_div : option str;            (* div class title|heading, stripped text *)
  card_h2 : option str;
  card_h3 : option str;
  card_amount_span : option str;          (* span class raised|amount, its text *)
  card_dollar_text : option str           (* first text node with \$[\d,]+ *)
}.

(** [s.split(sep)[-1]] for a one-character separator. *)
Definition split_last (sep : ascii) (s : str) : str :=
  rev (split_head sep (rev s)).

(** [r'\$?([\d,]+)'] *)
Definition card_amount_re : regex :=
  Seq [Opt (Chr "$"); Grp 1 (Plus (Cls (fun c => is_digit c || chr_eqb c ",")))].

(** [s.replace(',', '')] *)
Definition remove_commas (s : str) : str :=
  filter (fun c => negb (chr_eqb c ",")) s.

Definition or_else {A} (x y : option A) : option A :=
  match x with Some _ => x | None => y end.

(** Lines 64-76: the field [amount_raised] of a card. *)
Definition card_amount (cd : card) : str :=
  let amount_text :=
    match card_amount_span cd with
    | Some t => Some t
    | None =>
        match card_dollar_text cd with
        | Some t => if nonempty t then Some t else None
        | None => None
        end
    end in
  match amount_text with
  | Some t =>
      match search card_amount_re t with
      | Some amount_match => remove_commas (group 1 amount_match)
      | None => lit "0"
      end
  | None => lit "0"
  end.

(** [img.get('src') or img.get('data-src', '')] *)
Definition card_image (cd : card) : str :=
  match card_img cd with
  | Some (src, data_src) =>
      match src with
      | Some (c :: s) => c :: s
      | _ => match data_src with Some d => d | None => [] end
      end
  | None => []
  end.

Definition card_title (cd : card) : str :=
  match or_else (card_title_div cd) (or_else (card_h2 cd) (card_h3 cd)) with
  | Some t => t
  | None => []
  end.

Definition extract_campaign_data (base_url : str) (cd : card) : option dict :=
  match card_link cd with
  | Some (Some (c :: h)) =>
      let href := c :: h in
      let data := dict_set (lit "url") (PStr (base_url ++ href)) [] in
      let data := dict_set (lit "id") (PStr (split_last slash href)) data in
      let data := dict_set (lit "image_url") (PStr (card_image cd)) data in
      let data := dict_set (lit "title") (PStr (card_title cd)) data in
      Some (dict_set (lit "amount_raised") (PStr (card_amount cd)) data)
  | _ => None
  end.

(** ** [GoFundMeScraper.scrape_campaigns] *)

(** [d.update(other)] *)
Definition dict_update (other d : dict) : dict :=
  fold_left (fun acc kv => dict_set (fst kv) (snd kv) acc) other d.

(** [scrape_category_page]: the cards of the page, those without a link
    left out; [None] (the request raised) gives no campaign. *)
Definition scrape_category_page (base_url : str) (cards : option (list card))
    : list dict :=
  match cards with
  | Some cs =>
      flat_map (fun cd => match extract_campaign_data base_url cd with
                          | Some data =>
                              if truthy (dict_get_default (lit "url") PNone data)
                              then [data] else []
                          | None => []
                          end) cs
  | None => []
  end.

Section Scrape.

Variable fromisoformat : str -> option datetime.
Variable now : datetime.
Variable base_url : str.
(** The listing page number [p], and the page a campaign URL leads to. *)
Variable listing : Z -> option (list card).
Variable fetch_soup : str -> option soup.

(** The [for] over the campaigns of one page. *)
Fixpoint scrape_page_campaigns (max_campaigns : Z) (page_campaigns : list dict)
    (total_scraped : Z) (campaigns : list dict) : Z * list dict :=
  match page_campaigns with
  | [] => (total_scraped, campaigns)
  | campaign :: rest =>
      if (max_campaigns <=? total_scraped)%Z then (total_scraped, campaigns)
      else
        let url := match dict_get_default (lit "url") PNone campaign with
                   | PStr u => u | _ => [] end in
        let details := get_campaign_details fromisoformat now (fetch_soup url) in
        scrape_page_campaigns max_campaigns rest (total_scraped + 1)%Z
          (campaigns ++ [dict_update details campaign])
  end.

(** The [while] over the pages. *)
Fixpoint scrape_loop (fuel : nat) (max_campaigns max_pages page total_scraped : Z)
    (campaigns : list dict) : list dict :=
  match fuel with
  | O => campaigns
  | S fuel' =>
      if (total_scraped <? max_campaigns)%Z && (page <=? max_pages)%Z then
        match scrape_category_page base_url (listing page) with
        | [] => campaigns
        | page_campaigns =>
            let (total', campaigns') :=
              scrape_page_campaigns max_campaigns page_campaigns
                total_scraped campaigns in
            scrape_loop fuel' max_campaigns max_pages (page + 1)%Z total' campaigns'
        end
      else campaigns
  end.

(** [scrape_campaigns]: [self.campaigns] at the end. *)
Definition scrape_campaigns (max_campaigns max_pages : Z) (campaigns : list dict)
    : list dict :=
  scrape_loop (Z.to_nat max_pages) max_campaigns max_pages 1 0 campaigns.

End Scrape.

(** The fields a card gives a record. *)
Definition summary_fields : list str :=
  [lit "url"; lit "id"; lit "image_url"; lit "title"; lit "amount_raised"].

(** The image URL of a record is a string that begins with [http]. *)
Definition http_image (campaign : dict) : bool :=
  match dict_get_default (lit "image_url") (PStr []) campaign with
  | PStr s => nonempty s && starts_with (lit "http") s
  | _ => false
  end.

(** The image URL of a record is a string, or a value that counts as false
    (a missing key, [None], ['']). *)
Definition image_url_is_text (campaign : dict) : bool :=
  match dict_get_default (lit "image_url") (PStr []) campaign with
  | PStr _ => true
  | v => negb (truthy v)
  end.

(** The URLs of the records a run with the service ['google'] sends out. *)
Definition sent_urls (campaigns : list dict) : list str :=
  flat_map (fun c => match dict_get_default (lit "image_url") (PStr []) c with
                     | PStr s => if http_image c then [s] else []
                     | _ => []
                     end) campaigns.

(** *** [process_campaigns], with its progress line

    Before it analyzes a record the loop prints
    [campaign.get('title', 'Unknown')[:50]] (line 191): a title that cannot
    be sliced (a number, [None], ...) raises there, before the vision
    service is called. *)

(** [campaign.get('title', 'Unknown')[:50]] does not raise. *)
Definition title_sliceable (campaign : dict) : bool :=
  match dict_get (lit "title") campaign with
  | None => true
  | Some (PStr _) => true
  | Some (PList _) => true
  | Some _ => false
  end.

Section ImageAnalyzerLogged.

Variable vision : str -> bool * dict.
Variable service : str.

Definition print_title (campaign : dict) : M unit :=
  if title_sliceable campaign then ret tt
  else raise "TypeError".   (* [KeyError] for a dict from Python 3.12 on *)

(** One pass through the body of the [for] of [process_campaigns]. *)
Definition process_campaign_logged (campaign : dict) : M dict :=
  let image_url := dict_get_default (lit "image_url") (PStr []) campaign in
  if negb (truthy image_url) then
    ret (dict_set (lit "image_analysis") no_url_result campaign)
  else
    _ <- print_title campaign ;;
    analysis <- analyze_image vision service image_url ;;
    let campaign := dict_set (lit "image_analysis") analysis campaign in
    _ <- read_success analysis ;;
    ret campaign.

Fixpoint process_campaigns_logged (campaigns : list dict) : M (list dict) :=
  match campaigns with
  | [] => ret []
  | campaign :: rest =>
      campaign' <- process_campaign_logged campaign ;;
      enriched <- process_campaigns_logged rest ;;
      ret (campaign' :: enriched)
  end.

End ImageAnalyzerLogged.

(** ** Sample inputs *)

Definition two_links : option (list (option str)) :=
  Some [Some (lit "https://www.gofundme.com/f/a?x=1");
        Some (lit "https://www.gofundme.com/f/b/")].

Definition hours_and_date_page : page :=
  mk_page (Some (lit "Created October 1, 2025 - updated 3 hrs ago"))
          None None None None None.

Definition future_meta_soup : soup :=
  mk_soup None None None (Some (Some (lit "2030-01-01T00:00:00Z"))).

(** The one timestamp the witness needs, read as the library reads it. *)
Definition iso_2030 (s : str) : option datetime :=
  if str_eqb s (lit "2030-01-01T00:00:00+00:00")
  then Some (mk_datetime (mk_date 2030 1 1) 0) else None.

Definition max_soup : soup :=
  mk_soup (Some (Some (PDict [(lit "description", PStr (lit "Help Max recover"))])))
          (Some (lit "Other text in a story element")) None None.

Definition og_long_page : page :=
  mk_page (Some (lit "Help Max recover")) None None None
          (Some (Some (repeat "a"%char 600))) None.

Definition three_urls : list str :=
  [lit "https://www.gofundme.com/f/a"; lit "https://www.gofundme.com/f/b";
   lit "https://www.gofundme.com/f/c"].


Definition no_image_campaign : dict :=
  [(lit "url", PStr (lit "https://www.gofundme.com/f/a"));
   (lit "image_url", PStr [])].

Definition no_image_null_title_campaign : dict :=
  [(lit "title", PNone); (lit "image_url", PStr [])].

Definition no_phrase_page : page :=
  mk_page (Some (lit "Help Max recover. Organizer: Jane Doe"))
          None None None None None.

Definition date_only_page : page :=
  mk_page (Some (lit "Organizer: Jane Doe. Created October 1, 2025"))
          None None None None None.

Definition short_then_blank_page : page :=
  mk_page (Some []) None (Some (lit "Help Max")) None (Some None) None.

Definition long_second_page : page :=
  mk_page (Some []) None (Some (lit "Help Max"))
          (Some (lit "  Max needs surgery after an accident.  ")) (Some None) None.

Definition sample_card : card :=
  mk_card (Some (Some (lit "/f/help-max"))) None None (Some (lit "Help Max"))
          None (Some (lit "$1,250 raised")) None.

Definition sample_card_record : dict :=
  Eval vm_compute in
    match extract_campaign_data (lit "https://www.gofundme.com") sample_card with
    | Some data => data
    | None => []
    end.

Definition null_description_soup : soup :=
  mk_soup (Some (Some (PDict [(lit "description", PNone)])))
          (Some (lit "The story of Max")) None None.

Definition past_meta_soup : soup :=
  mk_soup None None None (Some (Some (lit "2025-10-01T12:00:00Z"))).

Definition iso_2025_10_01 (s : str) : option datetime :=
  if str_eqb s (lit "2025-10-01T12:00:00+00:00")
  then Some (mk_datetime (mk_date 2025 10 1) 43200000000) else None.

Definition one_page_listing (p : Z) : option (list card) :=
  if (p =? 1)%Z then Some [sample_card; sample_card] else None.

Definition endless_listing (p : Z) : option (list card) :=
  if (3 <=? p)%Z then Some [sample_card; sample_card] else one_page_listing p.

Definition http_campaign : dict :=
  [(lit "url", PStr (lit "https://www.gofundme.com/f/b"));
   (lit "image_url", PStr (lit "https://images.gofundme.com/b.jpg"))].

Definition relative_image_campaign : dict :=
  [(lit "url", PStr (lit "https://www.gofundme.com/f/c"));
   (lit "title", PStr (lit "Help Coco"));
   (lit "image_url", PStr (lit "/static/c.jpg"))].

Definition null_title_campaign : dict :=
  [(lit "title", PNone);
   (lit "image_url", PStr (lit "https://images.gofundme.com/d.jpg"))].

(** * Properties *)

Lemma str_eqb_spec (s t : str) : reflect (s = t) (str_eqb s t).
Proof.
  revert t; induction s as [|a s IH]; intros [|b t]; simpl;
    try (constructor; congruence).
  unfold chr_eqb. destruct (Ascii.eqb_spec a b) as [->|Hab]; simpl.
  - destruct (IH t) as [->|Hst]; constructor; congruence.
  - constructor; congruence.
Qed.

Lemma str_eqb_refl (s : str) : str_eqb s s = true.
Proof. destruct (str_eqb_spec s s); congruence. Qed.

Lemma str_eqb_eq (s t : str) : str_eqb s t = true <-> s = t.
Proof. destruct (str_eqb_spec s t); split; congruence. Qed.

Lemma str_eqb_neq (s t : str) : str_eqb s t = false <-> s <> t.
Proof. destruct (str_eqb_spec s t); split; congruence. Qed.

Lemma mem_In (x : str) (xs : list str) : mem x xs = true <-> In x xs.
Proof.
  unfold mem. rewrite existsb_exists. split.
  - intros (y & Hy & E). apply str_eqb_eq in E. now subst.
  - intros H. exists x. split; [assumption | apply str_eqb_refl].
Qed.

Lemma mem_not_In (x : str) (xs : list str) : mem x xs = false <-> ~ In x xs.
Proof.
  rewrite <- mem_In. destruct (mem x xs); split; congruence.
Qed.

Lemma chr_eqb_eq (a b : ascii) : chr_eqb a b = true <-> a = b.
Proof. unfold chr_eqb. destruct (Ascii.eqb_spec a b); split; congruence. Qed.

Lemma chr_eqb_sym (a b : ascii) : chr_eqb a b = chr_eqb b a.
Proof. unfold chr_eqb. apply Ascii.eqb_sym. Qed.

Lemma split_head_no_sep (sep : ascii) (s : str) :
  ~ In sep s -> split_head sep s = s.
Proof.
  induction s as [|a s IH]; simpl; intros H; [reflexivity|].
  destruct (chr_eqb a sep) eqn:E.
  - apply chr_eqb_eq in E. subst. exfalso. apply H. now left.
  - f_equal. apply IH. intros Hin. apply H. now right.
Qed.

Lemma split_head_app_sep (sep : ascii) (s t : str) :
  ~ In sep s -> split_head sep (s ++ sep :: t) = s.
Proof.
  induction s as [|a s IH]; simpl; intros H.
  - unfold chr_eqb. now rewrite Ascii.eqb_refl.
  - destruct (chr_eqb a sep) eqn:E.
    + apply chr_eqb_eq in E. subst. exfalso. apply H. now left.
    + f_equal. apply IH. intros Hin. apply H. now right.
Qed.

Lemma split_head_not_In (sep : ascii) (s : str) : ~ In sep (split_head sep s).
Proof.
  induction s as [|a s IH]; simpl; [tauto|].
  destruct (chr_eqb a sep) eqn:E; simpl; [tauto|].
  intros [H|H]; [|tauto].
  subst. unfold chr_eqb in E. now rewrite Ascii.eqb_refl in E.
Qed.

Lemma drop_while_incl (p : ascii -> bool) (s : str) (c : ascii) :
  In c (drop_while p s) -> In c s.
Proof.
  induction s as [|a s IH]; simpl; [tauto|].
  destruct (p a); simpl; tauto.
Qed.

Lemma drop_while_head (p : ascii -> bool) (s : str) :
  match drop_while p s with
  | [] => True
  | a :: _ => p a = false
  end.
Proof.
  induction s as [|a s IH]; simpl; [exact I|].
  destruct (p a) eqn:E; [exact IH | exact E].
Qed.

Lemma drop_while_stop (p : ascii -> bool) (a : ascii) (s : str) :
  p a = false -> drop_while p (a :: s) = a :: s.
Proof. simpl. now intros ->. Qed.

Lemma rstrip_by_incl (p : ascii -> bool) (s : str) (c : ascii) :
  In c (rstrip_by p s) -> In c s.
Proof.
  unfold rstrip_by. intros H. apply in_rev in H.
  apply drop_while_incl in H. now apply in_rev.
Qed.

Lemma rstrip_by_last (p : ascii -> bool) (s v : str) (a : ascii) :
  rstrip_by p s = v ++ [a] -> p a = false.
Proof.
  unfold rstrip_by. intros H.
  assert (E : drop_while p (rev s) = a :: rev v).
  { rewrite <- (rev_involutive (drop_while p (rev s))), H, rev_app_distr.
    reflexivity. }
  pose proof (drop_while_head p (rev s)) as Hd. now rewrite E in Hd.
Qed.

Lemma rstrip_by_fixed (p : ascii -> bool) (s : str) :
  (forall v a, s = v ++ [a] -> p a = false) -> rstrip_by p s = s.
Proof.
  intros H. unfold rstrip_by.
  destruct (rev s) as [|a r] eqn:E.
  - simpl. apply (f_equal (@rev ascii)) in E. rewrite rev_involutive in E.
    now subst.
  - assert (Hs : s = rev r ++ [a]).
    { rewrite <- (rev_involutive s), E. reflexivity. }
    rewrite drop_while_stop by (eapply H; exact Hs).
    simpl. symmetry. exact Hs.
Qed.

Lemma rstrip_by_snoc (p : ascii -> bool) (s : str) (a : ascii) :
  p a = true -> rstrip_by p (s ++ [a]) = rstrip_by p s.
Proof.
  intros H. unfold rstrip_by. rewrite rev_app_distr. simpl. now rewrite H.
Qed.

Lemma no_trailing_slash_fixed (u : str) :
  no_trailing_slash u -> rstrip_by (chr_eqb slash) u = u.
Proof.
  intros H. apply rstrip_by_fixed. intros v a E.
  destruct (chr_eqb slash a) eqn:Ea; [|reflexivity].
  apply chr_eqb_eq in Ea. subst a. now apply H in E.
Qed.

Lemma clean_url_fixed (u : str) :
  no_query u -> no_trailing_slash u -> clean_url u = u.
Proof.
  intros Hq Hs. unfold clean_url. rewrite split_head_no_sep by exact Hq.
  now apply no_trailing_slash_fixed.
Qed.

Lemma clean_url_no_query (x : str) : no_query (clean_url x).
Proof.
  intros H. apply rstrip_by_incl in H. now apply split_head_not_In in H.
Qed.

Lemma clean_url_no_trailing_slash (x : str) : no_trailing_slash (clean_url x).
Proof.
  intros v E. apply rstrip_by_last in E.
  unfold chr_eqb in E. now rewrite Ascii.eqb_refl in E.
Qed.

(** Any query string is dropped, not only [?x=1]. *)
Lemma clean_url_query (u q : str) :
  no_query u -> no_trailing_slash u -> clean_url (u ++ qmark :: q) = u.
Proof.
  intros Hq Hs. unfold clean_url. rewrite split_head_app_sep by exact Hq.
  now apply no_trailing_slash_fixed.
Qed.

Lemma clean_url_slash (u : str) :
  no_query u -> no_trailing_slash u -> clean_url (u ++ [slash]) = u.
Proof.
  intros Hq Hs. unfold clean_url.
  rewrite split_head_no_sep.
  - rewrite rstrip_by_snoc by reflexivity. now apply no_trailing_slash_fixed.
  - intros H. apply in_app_or in H. destruct H as [H|[H|[]]]; [now apply Hq|].
    discriminate H.
Qed.

(** C6. Canonicalization is idempotent, and for a URL [u] without query
    string and without trailing slash, [u], [u + "?x=1"] and [u + "/"] all
    canonicalize to [u]. *)
Theorem clean_url_idempotent_collapses :
  (forall x, clean_url (clean_url x) = clean_url x) /\
  (forall u, no_query u -> no_trailing_slash u ->
     clean_url u = u /\
     clean_url (u ++ lit "?x=1") = clean_url u /\
     clean_url (u ++ lit "/") = clean_url u).
Proof.
  split.
  - intros x. apply clean_url_fixed;
      [apply clean_url_no_query | apply clean_url_no_trailing_slash].
  - intros u Hq Hs. rewrite (clean_url_fixed Hq Hs). repeat split.
    + exact (clean_url_query (lit "x=1") Hq Hs).
    + exact (clean_url_slash Hq Hs).
Qed.

(** ** The frontier *)

Lemma add_all_fresh (new_urls s : list str) :
  NoDup new_urls -> (forall u, In u new_urls -> ~ In u s) ->
  add_all new_urls s = s ++ new_urls.
Proof.
  unfold add_all. revert s.
  induction new_urls as [|u l IH]; intros s Hnd Hfresh; simpl.
  - now rewrite app_nil_r.
  - inversion Hnd as [|? ? Hu Hl]; subst.
    unfold set_add at 2.
    assert (E : mem u s = false) by (apply mem_not_In, Hfresh; now left).
    rewrite E, IH; [now rewrite <- app_assoc | assumption |].
    intros v Hv Hin. apply in_app_or in Hin. destruct Hin as [Hin|[->|[]]].
    + apply (Hfresh v); [now right | assumption].
    + contradiction.
Qed.

Lemma visible_step_NoDup (urls : list str) (href : option str) :
  NoDup urls -> NoDup (visible_step urls href).
Proof.
  intros H. unfold visible_step. destruct href as [h|]; [|assumption].
  destruct (nonempty h && contains (lit "/f/") h); [|assumption].
  destruct (mem (clean_url h) urls) eqn:E; [assumption|].
  apply mem_not_In in E. apply NoDup_app; [assumption | repeat constructor; tauto |].
  intros x Hx [<-|[]]. contradiction.
Qed.

Lemma extract_visible_urls_NoDup links : NoDup (extract_visible_urls links).
Proof.
  unfold extract_visible_urls. destruct links as [ls|]; [|constructor].
  assert (G : forall acc, NoDup acc -> NoDup (fold_left visible_step ls acc)).
  { induction ls as [|l ls IH]; intros acc Hacc; simpl; [assumption|].
    apply IH. now apply visible_step_NoDup. }
  apply G. constructor.
Qed.

Lemma new_urls_of_NoDup visible st :
  NoDup visible -> NoDup (new_urls_of visible st).
Proof. intros H. unfold new_urls_of. now apply NoDup_filter. Qed.

Lemma new_urls_of_fresh visible st u :
  In u (new_urls_of visible st) -> ~ In u (campaign_urls st).
Proof.
  unfold new_urls_of. intros H. apply filter_In in H. destruct H as [_ H].
  apply mem_not_In. now destruct (mem u (campaign_urls st)).
Qed.

Lemma slice_to_length {A} (n : Z) (l : list A) :
  (0 <= n)%Z -> length (slice_to n l) = Nat.min (Z.to_nat n) (length l).
Proof.
  intros H. unfold slice_to.
  destruct (0 <=? n)%Z eqn:E; [|lia]. apply length_firstn.
Qed.





(** The loop always returns: [attempts] grows with every pass and the guard
    stops it past 100. *)
Lemma collect_loop_total max page : forall fuel st,
  102 <= fuel + attempts st ->
  exists r, collect_loop fuel max page st = Some r.
Proof.
  induction fuel as [|f IH]; intros st Hf; simpl;
    destruct (loop_guard max st) eqn:G; try (eexists; reflexivity).
  - unfold loop_guard in G. apply andb_prop in G. destruct G as [_ G].
    apply Nat.leb_le in G. simpl in Hf. lia.
  - assert (Ha : forall st1, loop_body max (extract_visible_urls (page (attempts st))) st
                             = (st1, None) -> attempts st1 = S (attempts st)).
    { unfold loop_body. intros st1.
      repeat match goal with |- context [if ?b then _ else _] => destruct b end;
        intros [= <-]; reflexivity. }
    destruct (loop_body max (extract_visible_urls (page (attempts st))) st)
      as [st1 [o1|]]; [eexists; reflexivity|].
    destruct (IH st1) as [[[st2 o2] log2] E].
    + rewrite (Ha st1 eq_refl). lia.
    + rewrite E. eexists; reflexivity.
Qed.

(** What one pass does to the strike counter. *)
Lemma loop_body_strikes max visible st :
  loop_guard max st = true ->
  let n := length (new_urls_of visible st) in
  let r := loop_body max visible st in
  (n = 0 ->
     (snd r = Some Exhausted /\ 3 <= S (no_new_count st)) \/
     (snd r = None /\ no_new_count (fst r) = S (no_new_count st)
      /\ S (no_new_count st) < 3)) /\
  (n <> 0 ->
     snd r = Some Capped \/ (snd r = None /\ no_new_count (fst r) = 0)).
Proof.
  intros G n r. unfold loop_guard in G. apply andb_prop in G.
  destruct G as [G _]. apply Z.ltb_lt in G.
  subst n r. unfold loop_body.
  destruct (new_urls_of visible st) as [|u l] eqn:E; simpl.
  - split; [intros _|congruence].
    destruct (max <=? len (campaign_urls st))%Z eqn:C;
      [apply Z.leb_le in C; lia|].
    destruct (no_new_count st) as [|[|c]]; simpl; try (right; repeat split; lia).
    left. split; [reflexivity | lia].
  - split; [discriminate | intros _].
    destruct (max <=? len _)%Z; simpl; [now left | right; now split].
Qed.

Lemma zeros_at_tail n log i k :
  zeros_at (n :: log) (S i) k -> zeros_at log i k.
Proof. intros H j Hj. exact (H j Hj). Qed.

Lemma zeros_at_head n log k :
  zeros_at (n :: log) 0 (S k) -> n = 0 /\ zeros_at log 0 k.
Proof.
  intros H. split.
  - specialize (H 0 (Nat.lt_0_succ k)). simpl in H. congruence.
  - intros j Hj. specialize (H (S j)). simpl in H. apply H. lia.
Qed.

Lemma zeros_at_weaken log i k k' :
  k' <= k -> zeros_at log i k -> zeros_at log i k'.
Proof. intros Hk H j Hj. apply H. lia. Qed.

Lemma zeros_at_length log i k : zeros_at log i k -> 0 < k -> i + k <= length log.
Proof.
  intros H Hk. specialize (H (k - 1)).
  assert (E : nth_error log (i + (k - 1)) <> None) by (rewrite H; [discriminate | lia]).
  apply nth_error_Some in E. lia.
Qed.

(** The strike counter counts the zero-iterations that end the log so far:
    a run of zeros that brings it to three ends the loop, as [Exhausted]. *)
Lemma collect_loop_stagnation max page : forall fuel st st' o log,
  collect_loop fuel max page st = Some (st', o, log) ->
  no_new_count st < 3 ->
  forall i k, zeros_at log i k ->
    (i = 0 /\ k + no_new_count st = 3) \/ k = 3 ->
    length log = i + k /\ o = Exhausted.
Proof.
  induction fuel as [|f IH]; intros st st' o log; simpl;
    destruct (loop_guard max st) eqn:G; try discriminate;
    try (intros [= _ _ <-] Hc i k Hz Hk;
         apply zeros_at_length in Hz; simpl in *; lia).
  pose proof (@loop_body_strikes max (extract_visible_urls (page (attempts st))) st G)
    as [Hzero Hpos]; simpl in Hzero, Hpos.
  set (n := length (new_urls_of (extract_visible_urls (page (attempts st))) st)) in *.
  destruct (loop_body max (extract_visible_urls (page (attempts st))) st)
    as [st1 [o1|]]; simpl in Hzero, Hpos.
  + (* the loop stops in this pass *)
    intros [= _ <- <-] Hc i k Hz Hk.
    pose proof (zeros_at_length Hz) as Hlen. simpl in Hlen.
    assert (Hi : i = 0) by lia. subst i.
    assert (Hk1 : k = 1) by lia. subst k.
    apply zeros_at_head in Hz. destruct Hz as [Hn _].
    destruct (Hzero Hn) as [[[= ->] _]|[[=] _]]. now split.
  + (* the loop goes on *)
    destruct (collect_loop f max page st1) as [[[st2 o2] log2]|] eqn:E;
      [|discriminate].
    intros [= _ <- <-] Hc i k Hz Hk.
    destruct i as [|i].
    * destruct k as [|k]; [lia|].
      apply zeros_at_head in Hz. destruct Hz as [Hn Hz].
      destruct (Hzero Hn) as [[[=] _]|(_ & Hc1 & Hlt)].
      assert (Hk' : k + no_new_count st1 = 3 \/
                    (k = 2 /\ no_new_count st1 = 2)) by lia.
      destruct Hk' as [Hk'|[-> Hk']].
      -- destruct (IH _ _ _ _ E ltac:(lia) 0 k Hz) as [Hl Ho]; [left; lia|].
         simpl. split; [lia | assumption].
      -- exfalso.
         destruct (IH _ _ _ _ E ltac:(lia) 0 1) as [Hl _];
           [eapply zeros_at_weaken; [|exact Hz]; lia | left; lia |].
         apply zeros_at_length in Hz; lia.
    * assert (k = 3) by lia. subst k.
      apply zeros_at_tail in Hz.
      destruct (Nat.eq_dec n 0) as [Hn|Hn].
      -- destruct (Hzero Hn) as [[[=] _]|(_ & Hc1 & Hlt)].
         destruct (IH _ _ _ _ E ltac:(lia) i 3 Hz) as [Hl Ho]; [now right|].
         simpl. split; [lia | assumption].
      -- destruct (Hpos Hn) as [[=]|[_ Hc1]].
         destruct (IH _ _ _ _ E ltac:(lia) i 3 Hz) as [Hl Ho]; [now right|].
         simpl. split; [lia | assumption].
Qed.

(** C2. Every run of the discovery loop returns, and if three consecutive
    iterations of the run ([i], [i+1], [i+2]) each found no new URL, the
    third of them is the last iteration and the outcome is [Exhausted] --
    for any target, any listing behaviour and any frontier the run starts
    from. *)
Theorem stagnation_terminates_exhausted max page urls0 :
  exists st o log,
    collect_loop loop_fuel max page (initial_state urls0) = Some (st, o, log) /\
    forall i, zeros_at log i 3 -> length log = i + 3 /\ o = Exhausted.
Proof.
  destruct (@collect_loop_total max page loop_fuel (initial_state urls0))
    as [[[st o] log] E]; [simpl; unfold loop_fuel; lia|].
  exists st, o, log. split; [exact E|].
  intros i Hz.
  eapply collect_loop_stagnation; [exact E | simpl; lia | exact Hz | now right].
Qed.

(** A listing that never shows anything new: three strikes, [Exhausted],
    whatever the frontier holds. *)
Example stagnation_run :
  collect_loop loop_fuel 5 (fun _ => Some [Some (lit "https://www.gofundme.com/f/a")])
    (initial_state [lit "https://www.gofundme.com/f/a"])
  = Some (mk_loop_state [lit "https://www.gofundme.com/f/a"] 2 3, Exhausted, [0; 0; 0]).
Proof. vm_compute. reflexivity. Qed.

(** A listing that shows one fresh link per read until the budget of 101
    passes is used up. *)
Example budget_run :
  match collect_loop loop_fuel 1000
          (fun k => Some [Some (lit "/f/" ++ repeat "a"%char k)]) (initial_state []) with
  | Some (st, o, log) => (attempts st, o, length log, length (campaign_urls st))
  | None => (0, Capped, 0, 0)
  end = (101, Budget, 101, 101).
Proof. vm_compute. reflexivity. Qed.

Section FrontierFacts.

Variable set_iter : list str -> list str.
Hypothesis set_iter_perm : forall s, Permutation (set_iter s) s.

(** C1, as the code has it. When an iteration of the running loop sees
    more than [max_campaigns] new URLs, all of them are inserted: the
    frontier ends above the target, the loop stops there as [Capped], and
    the cap is applied to the returned list, which has exactly
    [max_campaigns] entries. *)
Theorem cap_truncates_result_not_frontier max page fuel st :
  let visible := extract_visible_urls (page (attempts st)) in
  let new_urls := new_urls_of visible st in
  loop_guard max st = true ->
  (max < len new_urls)%Z ->
  exists st',
    collect_loop (S fuel) max page st = Some (st', Capped, [length new_urls]) /\
    campaign_urls st' = campaign_urls st ++ new_urls /\
    (max < len (campaign_urls st'))%Z /\
    len (snapshot set_iter max (campaign_urls st')) = max.
Proof.
  intros visible new_urls G Hmore.
  assert (Hadd : add_all new_urls (campaign_urls st) = campaign_urls st ++ new_urls).
  { apply add_all_fresh.
    - apply new_urls_of_NoDup, extract_visible_urls_NoDup.
    - intros u. apply new_urls_of_fresh. }
  assert (Hmax : (0 <= max)%Z).
  { unfold loop_guard in G. apply andb_prop in G. destruct G as [G _].
    apply Z.ltb_lt in G. unfold len in G. lia. }
  assert (Hlen : (max < len (campaign_urls st ++ new_urls))%Z).
  { unfold len in *. rewrite length_app. lia. }
  exists (mk_loop_state (campaign_urls st ++ new_urls) (attempts st) 0).
  simpl. rewrite G. fold visible. fold new_urls.
  unfold loop_body. fold new_urls.
  destruct new_urls as [|u l] eqn:E; [unfold len in Hmore; simpl in Hmore; lia|].
  simpl nonempty_list. cbv iota. rewrite Hadd. simpl campaign_urls.
  assert (C : (max <=? len (campaign_urls st ++ u :: l))%Z = true)
    by (apply Z.leb_le; lia).
  rewrite C. repeat split; try assumption.
  unfold snapshot, len. rewrite slice_to_length by assumption.
  rewrite (Permutation_length (set_iter_perm _)).
  unfold len in Hlen. lia.
Qed.

(** C5, as the code has it. For a limit that is not negative the snapshot
    has at most [limit] entries, without repetition, all of them members
    of the frontier: the first [limit] elements in the iteration order of
    the set. *)
Theorem snapshot_bounded_prefix_of_iteration limit urls :
  (0 <= limit)%Z -> NoDup urls ->
  (len (snapshot set_iter limit urls) <= limit)%Z /\
  NoDup (snapshot set_iter limit urls) /\
  incl (snapshot set_iter limit urls) urls /\
  snapshot set_iter limit urls = firstn (Z.to_nat limit) (set_iter urls).
Proof.
  intros Hl Hnd.
  assert (E : snapshot set_iter limit urls = firstn (Z.to_nat limit) (set_iter urls)).
  { unfold snapshot, slice_to. destruct (0 <=? limit)%Z eqn:C; [reflexivity|].
    apply Z.leb_gt in C. lia. }
  rewrite E. repeat split.
  - unfold len. rewrite length_firstn. lia.
  - assert (Hp : NoDup (set_iter urls)).
    { eapply Permutation_NoDup; [symmetry; apply set_iter_perm | exact Hnd]. }
    rewrite <- (firstn_skipn (Z.to_nat limit) (set_iter urls)) in Hp.
    now apply NoDup_app_remove_r in Hp.
  - intros x Hx. apply (Permutation_in x (set_iter_perm urls)).
    rewrite <- (firstn_skipn (Z.to_nat limit) (set_iter urls)).
    apply in_or_app. now left.
Qed.

End FrontierFacts.

(** C1 as stated fails: with target 1 and two new URLs visible, the frontier
    holds 2 URLs after the iteration, not 1. *)
Lemma cap_priority_counterexample :
  let visible := extract_visible_urls two_links in
  let st := initial_state [] in
  loop_guard 1 st = true /\
  (1 < len (new_urls_of visible st))%Z /\
  len (campaign_urls (fst (loop_body 1 visible st))) = 2%Z /\
  len (campaign_urls (fst (loop_body 1 visible st))) <> 1%Z.
Proof. vm_compute. repeat split; discriminate. Qed.

Lemma cap_truncates_result_not_frontier_witness :
  exists st',
    collect_loop 1 1 (fun _ => two_links) (initial_state []) =
      Some (st', Capped, [2]) /\
    campaign_urls st' =
      [lit "https://www.gofundme.com/f/a"; lit "https://www.gofundme.com/f/b"] /\
    (1 < len (campaign_urls st'))%Z /\
    len (snapshot (fun s => s) 1 (campaign_urls st')) = 1%Z.
Proof.
  apply (@cap_truncates_result_not_frontier (fun s => s)
           (fun s => Permutation_refl s) 1 (fun _ => two_links) 0 (initial_state [])).
  - reflexivity.
  - vm_compute. reflexivity.
Defined.

(** C5 as stated fails: a [set] is free to enumerate its elements in an
    order other than the insertion order.  With the reverse order (as
    admissible as any other), the snapshot of limit 1 of the frontier
    [a, b] is [b], not the oldest URL [a]. *)
Lemma snapshot_insertion_order_counterexample :
  let a := lit "https://www.gofundme.com/f/a" in
  let b := lit "https://www.gofundme.com/f/b" in
  (forall s : list str, Permutation (rev s) s) /\
  add_all [a; b] [] = [a; b] /\
  snapshot (@rev str) 1 [a; b] = [b] /\
  snapshot (@rev str) 1 [a; b] <> firstn 1 [a; b].
Proof.
  repeat split.
  - intros s. symmetry. apply Permutation_rev.
  - discriminate.
Qed.

Lemma snapshot_bounded_prefix_of_iteration_witness :
  let urls := [lit "https://www.gofundme.com/f/a"; lit "https://www.gofundme.com/f/b"] in
  (len (snapshot (fun s => s) 1 urls) <= 1)%Z /\
  NoDup (snapshot (fun s => s) 1 urls) /\
  incl (snapshot (fun s => s) 1 urls) urls /\
  snapshot (fun s => s) 1 urls = firstn (Z.to_nat 1) urls.
Proof.
  apply (@snapshot_bounded_prefix_of_iteration (fun s => s)
           (fun s => Permutation_refl s)).
  - lia.
  - repeat constructor; simpl; intros H;
      repeat (destruct H as [H|H]; try discriminate H); exact H.
Defined.

Lemma stagnation_terminates_exhausted_witness :
  exists st o log,
    collect_loop loop_fuel 5
      (fun _ => Some [Some (lit "https://www.gofundme.com/f/a")])
      (initial_state [lit "https://www.gofundme.com/f/a"]) = Some (st, o, log) /\
    zeros_at log 0 3 /\ length log = 0 + 3 /\ o = Exhausted.
Proof.
  destruct (stagnation_terminates_exhausted 5
              (fun _ => Some [Some (lit "https://www.gofundme.com/f/a")])
              [lit "https://www.gofundme.com/f/a"]) as (st & o & log & E & H).
  exists st, o, log. split; [exact E|].
  assert (Hz : zeros_at log 0 3).
  { rewrite stagnation_run in E. injection E as _ _ <-.
    intros [|[|[|j]]] Hj; try reflexivity. lia. }
  split; [exact Hz | exact (H 0 Hz)].
Defined.

Lemma no_query_check (u : str) : existsb (chr_eqb qmark) u = false -> no_query u.
Proof.
  intros H Hin.
  assert (E : existsb (chr_eqb qmark) u = true).
  { apply existsb_exists. exists qmark. split; [assumption|]. now apply chr_eqb_eq. }
  congruence.
Qed.

Lemma no_trailing_slash_check (u : str) :
  match rev u with a :: _ => negb (chr_eqb slash a) | [] => true end = true ->
  no_trailing_slash u.
Proof.
  intros H v E. subst u. rewrite rev_app_distr in H. simpl in H.
  discriminate H.
Qed.

Lemma clean_url_idempotent_collapses_witness :
  let u := lit "https://www.gofundme.com/f/help-max" in
  clean_url u = u /\
  clean_url (u ++ lit "?x=1") = clean_url u /\
  clean_url (u ++ lit "/") = clean_url u.
Proof.
  destruct clean_url_idempotent_collapses as [_ H].
  apply H; [apply no_query_check | apply no_trailing_slash_check]; reflexivity.
Defined.

(** ** The matcher against the words a pattern denotes *)

Lemma star_loop_last f n s c : In (s, c) (star_loop f n s c).
Proof. destruct n; simpl; [now left | apply in_or_app; right; now left]. Qed.

Lemma star_loop_fuel f : forall n n' s c,
  length s < n -> length s < n' -> star_loop f n s c = star_loop f n' s c.
Proof.
  induction n as [|n IH]; intros [|n'] s c Hn Hn'; try lia.
  simpl. f_equal. apply flat_map_ext. intros [s1 c1]. simpl.
  destruct (length s1 <? length s) eqn:E; [|reflexivity].
  apply Nat.ltb_lt in E. apply IH; lia.
Qed.

Lemma star_loop_step f n s c s1 c1 x :
  In (s1, c1) (f s c) -> length s1 < length s ->
  In x (star_loop f n s1 c1) -> In x (star_loop f (S n) s c).
Proof.
  intros H1 Hlt Hx. simpl. apply in_or_app. left.
  apply in_flat_map. exists (s1, c1). split; [assumption|]. simpl.
  apply Nat.ltb_lt in Hlt. now rewrite Hlt.
Qed.

Lemma m_Star_eq r s c :
  m (Star r) s c = star_loop (m r) (S (length s)) s c.
Proof. reflexivity. Qed.

(** Completeness: every word of the pattern at the head of the string is
    one of the ways the matcher finds. *)
Lemma m_complete r w :
  Matches r w -> forall rest c, exists c', In (rest, c') (m r (w ++ rest) c).
Proof.
  induction 1 as [p a Hp| |r1 r2 w1 w2 _ IH1 _ IH2|r1 r2 w _ IH|r1 r2 w _ IH
                 |r|r w1 w2 Hne _ IH1 _ IH2|n r w _ IH]; intros rest c.
  - exists c. simpl. rewrite Hp. now left.
  - exists c. now left.
  - destruct (IH1 (w2 ++ rest) c) as [c1 H1].
    destruct (IH2 rest c1) as [c2 H2].
    exists c2. simpl. rewrite <- app_assoc. apply in_flat_map.
    exists (w2 ++ rest, c1). now split.
  - destruct (IH rest c) as [c' H']. exists c'. simpl. apply in_or_app. now left.
  - destruct (IH rest c) as [c' H']. exists c'. simpl. apply in_or_app. now right.
  - exists c. rewrite m_Star_eq. apply star_loop_last.
  - destruct (IH1 (w2 ++ rest) c) as [c1 H1].
    destruct (IH2 rest c1) as [c2 H2].
    exists c2. rewrite m_Star_eq in *. rewrite <- app_assoc.
    assert (Hlt : length (w2 ++ rest) < length (w1 ++ w2 ++ rest)).
    { rewrite (length_app w1). destruct w1; [congruence | simpl; lia]. }
    eapply star_loop_step; [exact H1 | exact Hlt |].
    rewrite (@star_loop_fuel (m r) _ (S (length (w2 ++ rest)))); [exact H2 | lia | lia].
  - destruct (IH rest c) as [c' H']. eexists. simpl. apply in_map_iff.
    exists (rest, c'). split; [reflexivity | assumption].
Qed.

Lemma star_loop_sound r :
  (forall s c rest c', In (rest, c') (m r s c) ->
     exists w, s = w ++ rest /\ Matches r w) ->
  forall n s c rest c', In (rest, c') (star_loop (m r) n s c) ->
    exists w, s = w ++ rest /\ Matches (Star r) w.
Proof.
  intros IHr. induction n as [|n IH]; intros s c rest c' H; simpl in H.
  - destruct H as [[= <- <-]|[]]. exists []. split; [reflexivity | constructor].
  - apply in_app_or in H. destruct H as [H|[[= <- <-]|[]]].
    + apply in_flat_map in H. destruct H as ([s1 c1] & H1 & H2). simpl in H2.
      destruct (length s1 <? length s) eqn:E; [|contradiction].
      apply Nat.ltb_lt in E.
      destruct (IHr _ _ _ _ H1) as (w1 & -> & M1).
      destruct (IH _ _ _ _ H2) as (w2 & -> & M2).
      exists (w1 ++ w2). split; [now rewrite app_assoc|].
      constructor; try assumption.
      intros ->. simpl in E. lia.
    + exists []. split; [reflexivity | constructor].
Qed.

(** Soundness: every way the matcher finds is a word of the pattern. *)
Lemma m_sound r : forall s c rest c',
  In (rest, c') (m r s c) -> exists w, s = w ++ rest /\ Matches r w.
Proof.
  induction r as [p| |r1 IH1 r2 IH2|r1 IH1 r2 IH2|r IH|n r IH];
    intros s c rest c' H.
  - simpl in H. destruct s as [|a s]; [contradiction|].
    destruct (p a) eqn:Hp; [|contradiction].
    destruct H as [[= <- <-]|[]]. exists [a]. split; [reflexivity | now constructor].
  - destruct H as [[= <- <-]|[]]. exists []. split; [reflexivity | constructor].
  - simpl in H. apply in_flat_map in H. destruct H as ([s1 c1] & H1 & H2).
    destruct (IH1 _ _ _ _ H1) as (w1 & -> & M1).
    destruct (IH2 _ _ _ _ H2) as (w2 & E & M2). simpl in E. subst s1.
    exists (w1 ++ w2). split; [now rewrite app_assoc | now constructor].
  - simpl in H. apply in_app_or in H. destruct H as [H|H].
    + destruct (IH1 _ _ _ _ H) as (w & -> & M). exists w. split; [reflexivity|].
      now apply MAltL.
    + destruct (IH2 _ _ _ _ H) as (w & -> & M). exists w. split; [reflexivity|].
      now apply MAltR.
  - rewrite m_Star_eq in H. eapply star_loop_sound; [exact IH | exact H].
  - simpl in H. apply in_map_iff in H. destruct H as ([s1 c1] & [= <- _] & H).
    destruct (IH _ _ _ _ H) as (w & -> & M). exists w. split; [reflexivity|].
    now constructor.
Qed.

(** A whole string the matcher accepts is a word of the pattern: a way to
    get [Matches] facts about concrete strings by evaluation. *)
Lemma Matches_check r w :
  existsb (fun x => negb (nonempty (fst x))) (m r w []) = true -> Matches r w.
Proof.
  intros H. apply existsb_exists in H. destruct H as ([rest c] & Hin & Hr).
  simpl in Hr. destruct rest; [|discriminate].
  destruct (@m_sound _ _ _ _ _ Hin) as (w' & E & M).
  rewrite app_nil_r in E. now subst.
Qed.

Lemma match_at_complete r w rest pos :
  Matches r w -> match_at r pos (w ++ rest) <> None.
Proof.
  intros M. destruct (m_complete M rest []) as [c H].
  unfold match_at. destruct (m r (w ++ rest) []) as [|[s1 c1] l];
    [contradiction | discriminate].
Qed.

(** [re.search] finds a match whenever some part of the text is a word of
    the pattern. *)
Lemma search_complete r text : has_match r text -> search r text <> None.
Proof.
  intros (pre & w & post & -> & M). unfold search. generalize 0.
  induction pre as [|a pre IH]; intros pos.
  - simpl app. pose proof (@match_at_complete r w post pos M) as H.
    destruct (w ++ post); simpl; destruct (match_at r pos _); congruence.
  - simpl. destruct (match_at r pos _); [discriminate | apply IH].
Qed.

Lemma match_at_sound r pos s mo :
  match_at r pos s = Some mo ->
  s = m_text mo ++ m_rest mo /\ Matches r (m_text mo).
Proof.
  unfold match_at. destruct (m r s []) as [|[rest c] l] eqn:E; [discriminate|].
  intros [= <-]. simpl.
  destruct (@m_sound r s [] rest c) as (w & -> & M); [rewrite E; now left|].
  rewrite length_app, Nat.add_sub, firstn_app, Nat.sub_diag, firstn_all.
  simpl. rewrite app_nil_r. now split.
Qed.

(** What [re.search] returns is a match: the text splits around a word of
    the pattern. *)
Lemma search_sound r text mo :
  search r text = Some mo ->
  exists pre, text = pre ++ m_text mo ++ m_rest mo /\ Matches r (m_text mo).
Proof.
  unfold search. generalize 0. induction text as [|a text IH]; intros pos; simpl.
  - destruct (match_at r pos []) as [mo'|] eqn:E; [|discriminate].
    intros [= ->]. apply match_at_sound in E. exists []. exact E.
  - destruct (match_at r pos (a :: text)) as [mo'|] eqn:E.
    + intros [= ->]. apply match_at_sound in E. exists []. exact E.
    + intros H. destruct (IH _ H) as (pre & -> & M). exists (a :: pre). now split.
Qed.

(** ** The age rules *)

(** Without the hours phrase the same text is dated by the absolute date. *)
Example date_rule_alone :
  days_of_text (lit "Created October 1, 2025") = lit "25".
Proof. vm_compute. reflexivity. Qed.

(** *** Future dates on the absolute-date path *)

Lemma strptime_BdY_valid data created :
  strptime_BdY data = Some created -> valid_date created = true.
Proof.
  unfold strptime_BdY. destruct (match_at strptime_re 0 data) as [found|];
    [|discriminate].
  destruct (nonempty (m_rest found)); [discriminate|].
  destruct (index_of _ _ _) as [mo|]; [|discriminate].
  destruct (py_int (group 2 found)) as [d|]; [|discriminate].
  destruct (py_int (group 3 found)) as [y|]; [|discriminate].
  destruct (valid_date (mk_date y mo d)) eqn:V; [|discriminate].
  now intros [= <-].
Qed.

Lemma toordinal_after_today created :
  valid_date created = true -> date_ltb today created = true ->
  (toordinal today < toordinal created)%Z.
Proof.
  replace (toordinal today) with 739550%Z by reflexivity.
  destruct created as [y mo d]. unfold valid_date, date_ltb, toordinal, today.
  cbn [year month day].
  intros Hv Hlt.
  repeat (apply andb_prop in Hv; destruct Hv as [Hv ?]).
  repeat match goal with
         | H : (_ <=? _)%Z = true |- _ => apply Z.leb_le in H
         end.
  assert (Hm : (mo = 1 \/ mo = 2 \/ mo = 3 \/ mo = 4 \/ mo = 5 \/ mo = 6 \/ mo = 7
               \/ mo = 8 \/ mo = 9 \/ mo = 10 \/ mo = 11 \/ mo = 12)%Z) by lia.
  assert (Hafter : (2025 < y \/ (y = 2025 /\ (10 < mo \/ (mo = 10 /\ 26 < d))))%Z).
  { apply orb_prop in Hlt. destruct Hlt as [Hlt|Hlt];
      [left; now apply Z.ltb_lt in Hlt | right].
    apply andb_prop in Hlt. destruct Hlt as [Hy Hlt].
    apply Z.eqb_eq in Hy. split; [lia|].
    apply orb_prop in Hlt. destruct Hlt as [Hlt|Hlt];
      [left; now apply Z.ltb_lt in Hlt | right].
    apply andb_prop in Hlt. destruct Hlt as [Hmo Hlt].
    apply Z.eqb_eq in Hmo. apply Z.ltb_lt in Hlt. lia. }
  clear Hlt. unfold days_before_year, days_before_month, days_in_month in *.
  repeat (destruct Hm as [Hm|Hm]); subst mo; cbn [Z.ltb Z.compare Pos.compare
    Pos.compare_cont andb] in *; destruct (is_leap y);
    Z.div_mod_to_equations; lia.
Qed.

(** X7. On the absolute-date path a date after the reference day gives
    ["Unknown"], never a negative count. *)
Lemma absolute_date_future_unknown text date_match created :
  search hours_re text = None -> search days_re text = None ->
  search date_re text = Some date_match ->
  strptime_BdY (date_str date_match) = Some created ->
  date_ltb today created = true ->
  days_of_text text = unknown.
Proof.
  intros Hh Hd Hm Hp Hlt. unfold days_of_text. rewrite Hh, Hd, Hm, Hp.
  pose proof (@toordinal_after_today created (@strptime_BdY_valid _ _ Hp) Hlt) as H.
  destruct (0 <=? toordinal today - toordinal created)%Z eqn:E;
    [apply Z.leb_le in E; lia | reflexivity].
Qed.

Example absolute_date_future :
  days_of_text (lit "Created January 1, 2030") = unknown.
Proof. vm_compute. reflexivity. Qed.

(** *** Future dates on the metadata path of [get_campaign_details] *)

(** [t1 < t2] on naive datetimes. *)
Lemma delta_days_negative (now created : datetime) :
  (timestamp now < timestamp created)%Z -> (delta_days now created < 0)%Z.
Proof.
  intros H. unfold delta_days. apply Z.div_lt_upper_bound;
    unfold usec_per_day; lia.
Qed.

Lemma dict_get_set_same k v d : dict_get k (dict_set k v d) = Some v.
Proof.
  induction d as [|[k' v'] d IH]; simpl.
  - now rewrite str_eqb_refl.
  - destruct (str_eqb k k') eqn:E; simpl; [now rewrite str_eqb_refl|].
    now rewrite E.
Qed.

Lemma dict_get_set_other k k' v d :
  str_eqb k k' = false -> dict_get k (dict_set k' v d) = dict_get k d.
Proof.
  intros Hk. induction d as [|[k0 v0] d IH]; simpl.
  - now rewrite Hk.
  - destruct (str_eqb k' k0) eqn:E; simpl.
    + apply str_eqb_eq in E. subst k0. now rewrite Hk.
    + destruct (str_eqb k k0); [reflexivity | exact IH].
Qed.

(** C4, the metadata path. A publication timestamp later than [now] is not
    mapped to ["Unknown"]: [days_running] is the raw day difference, a
    negative integer. *)
Theorem metadata_future_date_negative
    (fromisoformat : str -> option datetime) (now created : datetime)
    (sp : soup) (content : str) :
  meta_published sp = Some (Some content) ->
  fromisoformat (replace_Z content) = Some created ->
  (timestamp now < timestamp created)%Z ->
  exists n,
    dict_get (lit "days_running")
             (get_campaign_details fromisoformat now (Some sp)) = Some (PInt n) /\
    (n < 0)%Z.
Proof.
  intros Hm Hp Hlt. exists (delta_days now created). split.
  - unfold get_campaign_details. rewrite dict_get_set_same.
    unfold days_running_field. now rewrite Hm, Hp.
  - now apply delta_days_negative.
Qed.

Lemma metadata_future_date_negative_witness :
  exists n,
    dict_get (lit "days_running")
             (get_campaign_details iso_2030 (mk_datetime today 0)
                (Some future_meta_soup)) = Some (PInt n) /\
    (n < 0)%Z.
Proof.
  apply (@metadata_future_date_negative iso_2030 (mk_datetime today 0)
           (mk_datetime (mk_date 2030 1 1) 0) future_meta_soup
           (lit "2030-01-01T00:00:00Z")).
  - reflexivity.
  - reflexivity.
  - vm_compute. reflexivity.
Defined.

Example metadata_future_date_value :
  dict_get (lit "days_running")
    (get_campaign_details iso_2030 (mk_datetime today 0) (Some future_meta_soup))
  = Some (PInt (-1528)).
Proof. vm_compute. reflexivity. Qed.

(** ** The description of [get_campaign_details] *)

(** C7 as stated fails for [extract_campaign_details]: it reads no JSON
    metadata, and [description[:500]] cuts whatever the selectors gave.  On
    a page with no description element whose [og:description] metadata is
    600 characters long, the description kept is its first 500 characters,
    where the spec keeps a metadata description whole. *)
Lemma description_metadata_cut_counterexample :
  desc_primary og_long_page = None /\
  desc_secondary og_long_page = None /\
  og_description og_long_page = Some (Some (repeat "a"%char 600)) /\
  description_spec (Some (repeat "a"%char 600)) None = repeat "a"%char 600 /\
  dict_get (lit "description")
    (extract_campaign_details (Some og_long_page)
       (lit "https://www.gofundme.com/f/help-max"))
  = Some (PStr (repeat "a"%char 500)) /\
  description_of og_long_page <> description_spec (Some (repeat "a"%char 600)) None.
Proof. vm_compute. repeat split. discriminate. Qed.

Lemma extract_campaign_details_description fetched url :
  dict_get (lit "description") (extract_campaign_details fetched url)
  = Some (PStr match fetched with
               | Some pg => match body_text pg with
                            | Some _ => description_of pg
                            | None => []
                            end
               | None => []
               end).
Proof.
  unfold extract_campaign_details.
  destruct fetched as [pg|]; [|reflexivity].
  destruct (body_text pg) as [page_text|]; [|reflexivity].
  rewrite dict_get_set_other by reflexivity. apply dict_get_set_same.
Qed.

(** C7, as the code has it.  In [get_campaign_details], when the JSON-LD
    metadata is a JSON object whose ["description"] is a value that counts
    as true, [details['description']] is that value as it is, however long;
    when the metadata gives no such value the description is the first 500
    characters of the description/story element, or [''].  In
    [extract_campaign_details] there is no JSON path and every description
    is cut: it never has more than 500 characters, and on a page without a
    description element it is the first 500 characters of the
    [og:description] metadata. *)
Theorem description_verbatim_only_from_json_ld
    (fromisoformat : str -> option datetime) (now : datetime) (sp : soup)
    (fetched : option page) (url : str) :
  (forall structured_data v,
     ld_json sp = Some (Some (PDict structured_data)) ->
     dict_get (lit "description") structured_data = Some v ->
     truthy v = true ->
     dict_get (lit "description")
       (get_campaign_details fromisoformat now (Some sp)) = Some v) /\
  ((forall structured_data v,
      ld_json sp = Some (Some (PDict structured_data)) ->
      dict_get (lit "description") structured_data = Some v ->
      truthy v = false) ->
   exists s,
     dict_get (lit "description")
       (get_campaign_details fromisoformat now (Some sp)) = Some (PStr s) /\
     length s <= 500 /\
     s = match desc_elem sp with Some t => firstn 500 t | None => [] end) /\
  (exists s,
     dict_get (lit "description") (extract_campaign_details fetched url)
     = Some (PStr s) /\
     length s <= 500) /\
  (forall pg page_text d,
     fetched = Some pg -> body_text pg = Some page_text ->
     desc_primary pg = None -> desc_secondary pg = None ->
     og_description pg = Some (Some d) ->
     dict_get (lit "description") (extract_campaign_details fetched url)
     = Some (PStr (firstn 500 d))).
Proof.
  assert (G : dict_get (lit "description")
                (get_campaign_details fromisoformat now (Some sp))
              = Some (description_field sp)).
  { unfold get_campaign_details.
    rewrite dict_get_set_other by reflexivity.
    destruct (date_elem sp) as [[t|]|];
      rewrite ?dict_get_set_other by reflexivity; apply dict_get_set_same. }
  rewrite G, extract_campaign_details_description. repeat split.
  - intros structured_data v Hj Hv Ht. unfold description_field.
    rewrite Hj. unfold dict_get_default. rewrite Hv, Ht. reflexivity.
  - intros Hj. unfold description_field.
    exists (match desc_elem sp with Some t => firstn 500 t | None => [] end).
    split; [|split; [|reflexivity]].
    + destruct (ld_json sp) as [[v|]|]; try (destruct (desc_elem sp); reflexivity).
      destruct v as [| | | | |structured_data];
        try (destruct (desc_elem sp); reflexivity).
      unfold dict_get_default.
      destruct (dict_get (lit "description") structured_data) as [v|] eqn:Hv.
      * rewrite (Hj structured_data v eq_refl Hv).
        destruct (desc_elem sp); reflexivity.
      * cbn [truthy nonempty]. destruct (desc_elem sp); reflexivity.
    + destruct (desc_elem sp); [apply firstn_le_length | simpl; lia].
  - eexists. split; [reflexivity|].
    destruct fetched as [pg|]; [|simpl; lia].
    destruct (body_text pg); [|simpl; lia].
    unfold description_of.
    destruct (desc_loop _ _); [apply firstn_le_length | simpl; lia].
  - intros pg page_text d -> Hb Hp Hs Ho. rewrite Hb.
    unfold description_of, desc_candidates. rewrite Hp, Hs, Ho.
    cbn [option_map desc_loop].
    destruct (nonempty d && (20 <? length d)); reflexivity.
Qed.

Lemma description_verbatim_only_from_json_ld_witness :
  dict_get (lit "description")
    (get_campaign_details iso_2030 (mk_datetime today 0) (Some max_soup))
  = Some (PStr (lit "Help Max recover")) /\
  dict_get (lit "description")
    (extract_campaign_details (Some og_long_page)
       (lit "https://www.gofundme.com/f/help-max"))
  = Some (PStr (firstn 500 (repeat "a"%char 600))).
Proof.
  destruct (description_verbatim_only_from_json_ld iso_2030 (mk_datetime today 0)
              max_soup (Some og_long_page)
              (lit "https://www.gofundme.com/f/help-max"))
    as (H & _ & _ & H').
  split.
  - apply (H [(lit "description", PStr (lit "Help Max recover"))]); reflexivity.
  - apply (H' og_long_page (lit "Help Max recover")); reflexivity.
Defined.

(** A metadata description of 600 characters comes out whole; the same text
    in the story element is cut to 500. *)
Example long_description_paths :
  let long := repeat "a"%char 600 in
  description_field (mk_soup (Some (Some (PDict [(lit "description", PStr long)])))
                             None None None) = PStr long /\
  description_field (mk_soup None (Some long) None None)
    = PStr (repeat "a"%char 500).
Proof. split; vm_compute; reflexivity. Qed.

(** ** The detail loop *)






(** X11. Without a signal every URL gets its record. *)
Lemma extract_all_details_quiet fetch sig : forall urls i campaigns,
  (forall j, j < length urls -> sig (i + j) = Quiet) ->
  extract_all_details fetch sig i urls campaigns
  = (campaigns ++ details_of fetch i urls, false).
Proof.
  induction urls as [|u urls IH]; intros i campaigns Hq; simpl.
  - now rewrite app_nil_r.
  - assert (Hi : sig i = Quiet).
    { specialize (Hq 0 ltac:(simpl; lia)). now rewrite Nat.add_0_r in Hq. }
    rewrite Hi, IH; [now rewrite <- app_assoc|].
    intros j Hj. replace (S i + j) with (i + S j) by lia. apply Hq. simpl. lia.
Qed.


(** ** The enrichment adapter *)

Section ImageAnalyzerFacts.

Variable vision : str -> bool * dict.
Variable service : str.

Lemma analyze_image_calls image_url calls :
  exists new,
    fst (analyze_image vision service image_url calls) = calls ++ new /\
    Forall real_url new.
Proof.
  unfold analyze_image.
  destruct (truthy image_url) eqn:T; cbn [negb];
    [|exists []; rewrite app_nil_r; split; [reflexivity | constructor]].
  destruct image_url as [| | |s| |];
    try (exists []; rewrite app_nil_r; split; [reflexivity | constructor]).
  destruct (starts_with (lit "http") s) eqn:P; cbn [negb];
    [|exists []; rewrite app_nil_r; split; [reflexivity | constructor]].
  destruct (str_eqb service (lit "google")).
  - unfold analyze_image_google. destruct (vision s) as [success items].
    exists [s]. split; [reflexivity|]. repeat constructor; assumption.
  - destruct (str_eqb service (lit "azure"));
      exists []; rewrite app_nil_r; split; try reflexivity; constructor.
Qed.

Lemma read_success_calls analysis calls :
  fst (read_success analysis calls) = calls.
Proof.
  unfold read_success. destruct analysis as [| | | | |d]; try reflexivity.
  destruct (dict_get (lit "success") d); reflexivity.
Qed.

Lemma process_campaign_logged_calls campaign calls :
  exists new,
    fst (process_campaign_logged vision service campaign calls) = calls ++ new /\
    Forall real_url new.
Proof.
  unfold process_campaign_logged.
  destruct (truthy (dict_get_default (lit "image_url") (PStr []) campaign));
    cbn [negb];
    [|exists []; rewrite app_nil_r; split; [reflexivity | constructor]].
  unfold bind at 1. unfold print_title.
  destruct (title_sliceable campaign);
    [|exists []; rewrite app_nil_r; split; [reflexivity | constructor]].
  unfold ret at 1. cbv beta iota. unfold bind.
  destruct (analyze_image_calls
              (dict_get_default (lit "image_url") (PStr []) campaign) calls)
    as (new & E & F).
  destruct (analyze_image vision service _ calls) as [calls1 [analysis|e]];
    simpl in E; subst calls1; [|exists new; now split].
  pose proof (read_success_calls analysis (calls ++ new)) as R.
  destruct (read_success analysis (calls ++ new)) as [calls2 [v|e]];
    simpl in R; subst calls2; exists new; now split.
Qed.

Lemma process_campaigns_logged_calls : forall campaigns calls,
  exists new,
    fst (process_campaigns_logged vision service campaigns calls) = calls ++ new /\
    Forall real_url new.
Proof.
  induction campaigns as [|c cs IH]; intros calls; simpl.
  - exists []. rewrite app_nil_r. split; [reflexivity | constructor].
  - unfold bind at 1.
    destruct (process_campaign_logged_calls c calls) as (new1 & E1 & F1).
    destruct (process_campaign_logged vision service c calls) as [calls1 [c'|e]];
      simpl in E1; subst calls1; [|exists new1; now split].
    unfold bind. destruct (IH (calls ++ new1)) as (new2 & E2 & F2).
    destruct (process_campaigns_logged vision service cs (calls ++ new1))
      as [calls2 [enriched|e]]; simpl in E2; subst calls2;
      exists (new1 ++ new2); rewrite app_assoc;
      (split; [reflexivity | apply Forall_app; now split]).
Qed.

(** C9. A record whose [image_url] is the empty string is handled without
    any call to the vision service, whatever else it holds: the test comes
    before the progress line and before [analyze_image], the call log is
    unchanged, the record gets
    [image_analysis = {'success': False, 'error': 'No image URL'}], and
    the error text names the image URL.  Over a whole run, whatever the
    records are and however the run ends, no call ever carries an empty
    URL. *)
Theorem empty_image_url_never_classified :
  (forall campaign calls,
     dict_get_default (lit "image_url") (PStr []) campaign = PStr [] ->
     process_campaign_logged vision service campaign calls
       = (calls, Ok (dict_set (lit "image_analysis") no_url_result campaign)) /\
     dict_get (lit "image_analysis")
       (dict_set (lit "image_analysis") no_url_result campaign)
       = Some (PDict [(lit "success", PBool false);
                      (lit "error", PStr (lit "No image URL"))]) /\
     contains (lit "image URL") (lit "No image URL") = true) /\
  (forall campaigns calls,
     exists new,
       fst (process_campaigns_logged vision service campaigns calls)
       = calls ++ new /\
       Forall real_url new /\ ~ In [] new).
Proof.
  split.
  - intros campaign calls H. repeat split.
    + unfold process_campaign_logged. rewrite H. reflexivity.
    + apply dict_get_set_same.
  - intros campaigns calls.
    destruct (process_campaigns_logged_calls campaigns calls) as (new & E & F).
    exists new. repeat split; try assumption.
    intros Hin. rewrite Forall_forall in F. destruct (F _ Hin) as [Hn _].
    discriminate Hn.
Qed.

End ImageAnalyzerFacts.

Lemma empty_image_url_never_classified_witness :
  process_campaign_logged (fun _ => (true, [])) (lit "google") no_image_campaign []
  = ([], Ok (dict_set (lit "image_analysis") no_url_result no_image_campaign)).
Proof.
  destruct (empty_image_url_never_classified (fun _ => (true, [])) (lit "google"))
    as [H _].
  destruct (H no_image_campaign []) as [E _]; [reflexivity | exact E].
Defined.

(** A record without an image is skipped before its title is printed: a
    title that cannot be sliced does no harm there. *)
Example empty_image_null_title :
  process_campaigns_logged (fun _ => (true, [])) (lit "google")
    [no_image_null_title_campaign] []
  = ([], Ok [dict_set (lit "image_analysis") no_url_result
               no_image_null_title_campaign]).
Proof. reflexivity. Qed.

(** ** The amount of [extract_campaign_details] *)

Lemma findall_from_Matches r : forall fuel s a,
  In a (findall_from fuel r s) -> Matches r a.
Proof.
  induction fuel as [|fuel IH]; intros s a; simpl; [tauto|].
  destruct (match_at r 0 s) as [mo|] eqn:E.
  - apply match_at_sound in E. destruct E as [_ M].
    destruct (m_text mo) as [|c w] eqn:Ew.
    + destruct s; [intros [] | apply IH].
    + intros [<-|H]; [exact M | exact (IH _ _ H)].
  - destruct s; [intros [] | apply IH].
Qed.

Lemma Matches_Cls_inv p w : Matches (Cls p) w -> exists a, w = [a] /\ p a = true.
Proof. inversion 1; subst. eexists; split; [reflexivity | assumption]. Qed.

Lemma Matches_Eps_inv w : Matches Eps w -> w = [].
Proof. now inversion 1. Qed.

Lemma Matches_Cat_inv r1 r2 w :
  Matches (Cat r1 r2) w ->
  exists w1 w2, w = w1 ++ w2 /\ Matches r1 w1 /\ Matches r2 w2.
Proof. inversion 1; subst. eexists; eexists; repeat split; eassumption. Qed.

Lemma Matches_Star_Cls p w : Matches (Star (Cls p)) w -> forallb p w = true.
Proof.
  intros H. remember (Star (Cls p)) as r eqn:Er.
  induction H as [| | | | | |r w1 w2 Hne H1 _ H2 IH2|]; try discriminate.
  - reflexivity.
  - injection Er as ->. apply Matches_Cls_inv in H1. destruct H1 as (a & -> & Ha).
    simpl. rewrite Ha. now apply IH2.
Qed.

(** A match of [\$[\d,]+]: a dollar sign and then digits and commas, at
    least one. *)
Lemma amount_token_shape a :
  Matches amount_re a ->
  exists body, a = "$"%char :: body /\ body <> [] /\
    forallb (fun c => is_digit c || chr_eqb c ",") body = true.
Proof.
  intros H. unfold amount_re, Seq, Plus in H. simpl in H.
  apply Matches_Cat_inv in H. destruct H as (w1 & w2 & -> & H1 & H2).
  apply Matches_Cls_inv in H1. destruct H1 as (c & -> & Hc).
  unfold Chr in Hc. apply chr_eqb_eq in Hc. subst c.
  apply Matches_Cat_inv in H2. destruct H2 as (w3 & w4 & -> & H3 & H4).
  apply Matches_Eps_inv in H4. subst w4. rewrite app_nil_r.
  apply Matches_Cat_inv in H3. destruct H3 as (w5 & w6 & -> & H5 & H6).
  apply Matches_Cls_inv in H5. destruct H5 as (c & -> & Hc).
  apply Matches_Star_Cls in H6.
  exists (c :: w6). repeat split; [discriminate|].
  simpl. now rewrite Hc, H6.
Qed.

Lemma digit_not_space c : is_digit c = true -> is_space c = false.
Proof.
  unfold is_digit, is_space. intros H. apply andb_prop in H. destruct H as [H1 H2].
  apply N.leb_le in H1. apply N.leb_le in H2.
  repeat match goal with
         | |- context [(?a <=? ?b)%N] => destruct (N.leb_spec a b)
         | |- context [(?a =? ?b)%N] => destruct (N.eqb_spec a b)
         end; simpl; try reflexivity; lia.
Qed.

Lemma digit_not_char c k : is_digit k = false -> is_digit c = true -> chr_eqb c k = false.
Proof.
  intros Hk Hc. destruct (chr_eqb c k) eqn:E; [|reflexivity].
  apply chr_eqb_eq in E. subst. congruence.
Qed.

Lemma strip_digits t : forallb is_digit t = true -> strip t = t.
Proof.
  intros H. unfold strip.
  assert (E : drop_while is_space t = t).
  { destruct t as [|c t]; [reflexivity|]. simpl in H. apply andb_prop in H.
    apply drop_while_stop, digit_not_space, H. }
  rewrite E. apply rstrip_by_fixed. intros v a ->.
  rewrite forallb_app in H. apply andb_prop in H. destruct H as [_ H].
  simpl in H. apply andb_prop in H. apply digit_not_space, H.
Qed.

(** [int] of a string of digits. *)
Lemma py_int_digits t :
  forallb is_digit t = true ->
  py_int t = if nonempty t && (length t <=? int_max_str_digits)
             then Some (int_of_digits t) else None.
Proof.
  intros H. unfold py_int. rewrite (strip_digits _ H).
  destruct t as [|c t]; [reflexivity|].
  pose proof H as H'. simpl in H'. apply andb_prop in H'. destruct H' as [Hc _].
  rewrite (@digit_not_char c "-"%char eq_refl Hc).
  rewrite (@digit_not_char c "+"%char eq_refl Hc).
  rewrite H. rewrite andb_true_r. reflexivity.
Qed.

Lemma strip_amount_token body :
  forallb (fun c => is_digit c || chr_eqb c ",") body = true ->
  strip_amount ("$"%char :: body) = filter is_digit body.
Proof.
  intros H. unfold strip_amount. simpl.
  induction body as [|c body IH]; [reflexivity|].
  simpl in H. apply andb_prop in H. destruct H as [Hc H]. simpl.
  rewrite (IH H).
  destruct (is_digit c) eqn:D.
  - rewrite (@digit_not_char c "$"%char eq_refl D).
    rewrite (@digit_not_char c ","%char eq_refl D). reflexivity.
  - simpl in Hc. rewrite Hc. now rewrite andb_false_r.
Qed.

Lemma filter_digits_forallb body : forallb is_digit (filter is_digit body) = true.
Proof.
  apply forallb_forall. intros c Hc. apply filter_In in Hc. tauto.
Qed.

Lemma nonempty_filter_existsb body :
  nonempty (filter is_digit body) = existsb is_digit body.
Proof.
  induction body as [|c body IH]; [reflexivity|]. simpl.
  destruct (is_digit c); [reflexivity | exact IH].
Qed.

(** [int] on a token: its digits, or [ValueError] when it has none or too
    many. *)
Lemma py_int_token a :
  Matches amount_re a ->
  py_int (strip_amount a)
  = if existsb is_digit a && (length (strip_amount a) <=? int_max_str_digits)
    then Some (int_of_digits (strip_amount a)) else None.
Proof.
  intros H. apply amount_token_shape in H. destruct H as (body & -> & _ & Hb).
  rewrite (strip_amount_token _ Hb).
  rewrite (py_int_digits _ (filter_digits_forallb body)).
  now rewrite nonempty_filter_existsb.
Qed.

Lemma amounts_numeric_all amounts :
  Forall (Matches amount_re) amounts ->
  Forall (fun a => existsb is_digit a = true /\
                   length (strip_amount a) <= int_max_str_digits) amounts ->
  amounts_numeric amounts
  = Some (map (fun a => int_of_digits (strip_amount a)) amounts).
Proof.
  induction 1 as [|a amounts Ha _ IH]; intros Hd; [reflexivity|].
  inversion Hd as [|? ? [Hda Hla] Hd']; subst. cbn [amounts_numeric map].
  apply Nat.leb_le in Hla.
  rewrite (py_int_token Ha), Hda, Hla, (IH Hd'). reflexivity.
Qed.

Lemma amounts_numeric_some_unconvertible amounts :
  Forall (Matches amount_re) amounts ->
  Exists (fun a => existsb is_digit a = false \/
                   int_max_str_digits < length (strip_amount a)) amounts ->
  amounts_numeric amounts = None.
Proof.
  induction 1 as [|a amounts Ha _ IH]; intros Hd; inversion Hd as [? ? Hda|? ? Hd'];
    subst; cbn [amounts_numeric].
  - rewrite (py_int_token Ha). destruct Hda as [Hda|Hla].
    + rewrite Hda. reflexivity.
    + apply Nat.leb_gt in Hla. rewrite Hla, andb_false_r. reflexivity.
  - rewrite (IH Hd'). destruct (py_int (strip_amount a)); reflexivity.
Qed.

Lemma findall_amount_tokens page_text :
  Forall (Matches amount_re) (findall amount_re page_text).
Proof.
  apply Forall_forall. intros a H. unfold findall in H.
  eapply findall_from_Matches. exact H.
Qed.

(** C10, as the code has it. [amount_raised] is the largest of the
    [\$[\d,]+] tokens of the page text (commas removed, in decimal) when
    every token has at least one digit and no more digits than [int]
    converts (4300); it is ["0"] when there is no token, and also when some
    token has no digit or too many: [int] raises on it and the [except]
    branch stores ["0"]. *)
Theorem amount_raised_largest_token (page_text : str) :
  let amounts := findall amount_re page_text in
  (amounts = [] -> amount_raised page_text = lit "0") /\
  (amounts <> [] ->
   Forall (fun a => existsb is_digit a = true /\
                    length (strip_amount a) <= int_max_str_digits) amounts ->
   amount_raised page_text
   = str_of_Z (max_of (map (fun a => int_of_digits (strip_amount a)) amounts))) /\
  (Exists (fun a => existsb is_digit a = false \/
                    int_max_str_digits < length (strip_amount a)) amounts ->
   amount_raised page_text = lit "0").
Proof.
  intros amounts. pose proof (findall_amount_tokens page_text) as Ht.
  fold amounts in Ht. unfold amount_raised. fold amounts.
  repeat split.
  - intros ->. reflexivity.
  - intros Hne Hd. rewrite (amounts_numeric_all Ht Hd).
    destruct amounts; [congruence | reflexivity].
  - intros He. rewrite (amounts_numeric_some_unconvertible Ht He).
    destruct amounts; reflexivity.
Qed.

(** C10 as stated fails: in the text ["$5 $,"] the pattern finds the tokens
    ["$5"] and ["$,"]; [int('')] raises on the second, and the amount is
    ["0"], not the largest dollar figure ["5"]. *)
Lemma amount_raised_counterexample :
  findall amount_re (lit "$5 $,") = [lit "$5"; lit "$,"] /\
  amount_raised (lit "$5 $,") = lit "0" /\
  largest_dollar_figure (lit "$5 $,") = lit "5" /\
  amount_raised (lit "$5 $,") <> largest_dollar_figure (lit "$5 $,").
Proof. vm_compute. repeat split. discriminate. Qed.

Lemma amount_raised_largest_token_witness :
  let page_text := lit "$1,250 raised of $10,000 goal" in
  amount_raised page_text
  = str_of_Z (max_of (map (fun a => int_of_digits (strip_amount a))
                          (findall amount_re page_text))).
Proof.
  intros page_text.
  destruct (amount_raised_largest_token page_text) as (_ & H & _).
  apply H.
  - vm_compute. discriminate.
  - replace (findall amount_re page_text) with [lit "$1,250"; lit "$10,000"]
      by (vm_compute; reflexivity).
    repeat (constructor; [split; [reflexivity | apply Nat.leb_le; reflexivity]|]).
    constructor.
Defined.

(** The goal, not the amount raised, when the goal is the larger figure. *)
Example amount_raised_picks_goal :
  amount_raised (lit "$1,250 raised of $10,000 goal") = lit "10000" /\
  amount_raised (lit "$1,250 raised") = lit "1250" /\
  amount_raised (lit "nothing raised yet") = lit "0".
Proof. vm_compute. repeat split. Qed.

(** A figure of 4301 digits is more than [int] converts: the amount is
    ["0"], whatever the other tokens; one of 4300 digits is converted. *)
Example amount_raised_digit_limit :
  amount_raised ("$"%char :: repeat "1"%char 4301 ++ lit " raised, $5 more")
  = lit "0" /\
  amount_raised ("$"%char :: repeat "0"%char 4299 ++ lit "7 raised, $5 more")
  = lit "7".
Proof. split; vm_compute; reflexivity. Qed.

(** * Further properties of the code *)

(** ** [extract_visible_urls] *)

Lemma contains_nonempty needle h :
  nonempty needle = true -> contains needle h = true -> nonempty h = true.
Proof. destruct needle; [discriminate|]. destruct h; [discriminate | reflexivity]. Qed.

Lemma visible_step_In urls href u :
  In u (visible_step urls href) <->
  In u urls \/
  exists h, href = Some h /\ contains (lit "/f/") h = true /\ u = clean_url h.
Proof.
  unfold visible_step. destruct href as [h|].
  - destruct (contains (lit "/f/") h) eqn:C.
    + rewrite (contains_nonempty (lit "/f/") h eq_refl C). simpl andb.
      destruct (mem (clean_url h) urls) eqn:E.
      * apply mem_In in E. split; [tauto|].
        intros [H|(h' & [= <-] & _ & ->)]; assumption.
      * rewrite in_app_iff. simpl. split.
        -- intros [H|[<-|[]]]; [tauto|]. right. exists h. now repeat split.
        -- intros [H|(h' & [= <-] & _ & ->)]; tauto.
    + rewrite andb_false_r. split; [tauto|].
      intros [H|(h' & [= <-] & C' & _)]; [assumption | congruence].
  - split; [tauto|]. intros [H|(h' & [=] & _)]. assumption.
Qed.

Lemma fold_visible_step_In ls : forall acc u,
  In u (fold_left visible_step ls acc) <->
  In u acc \/
  exists h, In (Some h) ls /\ contains (lit "/f/") h = true /\ u = clean_url h.
Proof.
  induction ls as [|l ls IH]; intros acc u; simpl.
  - split; [tauto|]. intros [H|(h & [] & _)]. assumption.
  - rewrite IH, visible_step_In. split.
    + intros [[H|(h & -> & C & E)]|(h & Hin & C & E)]; [tauto | |];
        right; exists h; tauto.
    + intros [H|(h & [Hl|Hin] & C & E)]; [tauto | |].
      * left. right. exists h. tauto.
      * right. exists h. tauto.
Qed.

(** X2. The visible URLs are exactly the canonical forms of the links whose
    [href] contains ["/f/"]: each once, none with a query string or a
    trailing slash. *)
Theorem visible_urls_canonical_distinct (ls : list (option str)) :
  NoDup (extract_visible_urls (Some ls)) /\
  (forall u, In u (extract_visible_urls (Some ls)) <->
     exists h, In (Some h) ls /\ contains (lit "/f/") h = true /\ u = clean_url h) /\
  (forall u, In u (extract_visible_urls (Some ls)) ->
     no_query u /\ no_trailing_slash u).
Proof.
  assert (Hin : forall u, In u (extract_visible_urls (Some ls)) <->
     exists h, In (Some h) ls /\ contains (lit "/f/") h = true /\ u = clean_url h).
  { intros u. unfold extract_visible_urls. rewrite fold_visible_step_In.
    simpl. tauto. }
  repeat split.
  - apply extract_visible_urls_NoDup.
  - apply Hin.
  - apply Hin.
  - apply Hin in H. destruct H as (h & _ & _ & ->). apply clean_url_no_query.
  - apply Hin in H. destruct H as (h & _ & _ & ->).
    apply clean_url_no_trailing_slash.
Qed.

Lemma visible_urls_canonical_distinct_witness :
  In (lit "https://www.gofundme.com/f/a")
     (extract_visible_urls
        (Some [Some (lit "https://www.gofundme.com/f/a?x=1");
               Some (lit "https://www.gofundme.com/f/a/"); None;
               Some (lit "https://www.gofundme.com/about")])).
Proof.
  destruct (visible_urls_canonical_distinct
              [Some (lit "https://www.gofundme.com/f/a?x=1");
               Some (lit "https://www.gofundme.com/f/a/"); None;
               Some (lit "https://www.gofundme.com/about")]) as (_ & H & _).
  apply H. exists (lit "https://www.gofundme.com/f/a?x=1").
  repeat split. simpl. tauto.
Defined.

(** ** The discovery loop: what it keeps and how it ends *)








Section ReturnedList.

Variable set_iter : list str -> list str.
Hypothesis set_iter_perm : forall s, Permutation (set_iter s) s.


End ReturnedList.


(** ** Capture groups *)

Lemma star_loop_caps_other n (f : str -> caps -> list (str * caps)) :
  (forall s c rest c', In (rest, c') (f s c) ->
     lookup_group n c' = lookup_group n c) ->
  forall fuel s c rest c', In (rest, c') (star_loop f fuel s c) ->
    lookup_group n c' = lookup_group n c.
Proof.
  intros Hf. induction fuel as [|fuel IH]; intros s c rest c' H; simpl in H.
  - destruct H as [[= <- <-]|[]]. reflexivity.
  - apply in_app_or in H. destruct H as [H|[[= <- <-]|[]]]; [|reflexivity].
    apply in_flat_map in H. destruct H as ([s1 c1] & H1 & H2). simpl in H2.
    destruct (length s1 <? length s); [|contradiction].
    rewrite (IH _ _ _ _ H2). exact (Hf _ _ _ _ H1).
Qed.

(** Matching a pattern without group [n] leaves group [n] as it was. *)
Lemma m_caps_other n r : no_grp n r = true ->
  forall s c rest c', In (rest, c') (m r s c) ->
    lookup_group n c' = lookup_group n c.
Proof.
  induction r as [p| |r1 IH1 r2 IH2|r1 IH1 r2 IH2|r IH|k r IH];
    simpl no_grp; intros Hn s c rest c' H.
  - simpl in H. destruct s as [|a s]; [contradiction|].
    destruct (p a); [|contradiction]. destruct H as [[= <- <-]|[]]. reflexivity.
  - destruct H as [[= <- <-]|[]]. reflexivity.
  - apply andb_prop in Hn. destruct Hn as [Hn1 Hn2].
    simpl in H. apply in_flat_map in H. destruct H as ([s1 c1] & H1 & H2).
    rewrite (IH2 Hn2 _ _ _ _ H2). exact (IH1 Hn1 _ _ _ _ H1).
  - apply andb_prop in Hn. destruct Hn as [Hn1 Hn2].
    simpl in H. apply in_app_or in H. destruct H as [H|H];
      [exact (IH1 Hn1 _ _ _ _ H) | exact (IH2 Hn2 _ _ _ _ H)].
  - rewrite m_Star_eq in H.
    exact (@star_loop_caps_other n (m r) (IH Hn) _ _ _ _ _ H).
  - apply andb_prop in Hn. destruct Hn as [Hk Hn].
    simpl in H. apply in_map_iff in H. destruct H as ([s1 c1] & [= <- <-] & H).
    simpl. apply negb_true_iff in Hk. rewrite Hk. exact (IH Hn _ _ _ _ H).
Qed.

(** A pattern that opens with group [n] and has no other: the group holds
    the word its pattern matched, at the head of the match. *)
Lemma m_leading_group n r1 r2 s c rest c' :
  no_grp n r2 = true ->
  In (rest, c') (m (Cat (Grp n r1) r2) s c) ->
  exists w tail,
    s = w ++ tail ++ rest /\ Matches r1 w /\ lookup_group n c' = Some w.
Proof.
  intros Hn H. simpl in H. apply in_flat_map in H.
  destruct H as ([s1 c1] & H1 & H2). simpl in H2.
  apply in_map_iff in H1. destruct H1 as ([s0 c0] & [= <- <-] & H1).
  destruct (@m_sound _ _ _ _ _ H1) as (w & -> & M1).
  destruct (@m_sound _ _ _ _ _ H2) as (tail & -> & M2).
  exists w, tail. repeat split; [assumption|].
  rewrite (@m_caps_other n r2 Hn _ _ _ _ H2). simpl. rewrite Nat.eqb_refl.
  rewrite length_app, Nat.add_sub, firstn_app, Nat.sub_diag, firstn_all.
  simpl. now rewrite app_nil_r.
Qed.

Lemma search_leading_group n r1 r2 text mo :
  no_grp n r2 = true ->
  search (Cat (Grp n r1) r2) text = Some mo ->
  exists tail, m_text mo = group n mo ++ tail /\ Matches r1 (group n mo).
Proof.
  intros Hn. unfold search. generalize 0. revert mo.
  assert (G : forall pos s mo, match_at (Cat (Grp n r1) r2) pos s = Some mo ->
            exists tail, m_text mo = group n mo ++ tail /\ Matches r1 (group n mo)).
  { intros pos s mo. unfold match_at.
    destruct (m (Cat (Grp n r1) r2) s []) as [|[rest c] l] eqn:E; [discriminate|].
    intros [= <-]. unfold group. simpl.
    destruct (@m_leading_group n r1 r2 s [] rest c Hn) as (w & tail & -> & M & L);
      [rewrite E; now left|].
    rewrite L. exists tail. split; [|assumption].
    rewrite !length_app.
    replace (length w + (length tail + length rest) - length rest)
      with (length (w ++ tail)) by (rewrite length_app; lia).
    rewrite app_assoc, firstn_app, Nat.sub_diag, firstn_all. simpl.
    now rewrite app_nil_r. }
  induction text as [|a text IH]; intros mo pos; simpl.
  - destruct (match_at _ pos []) as [mo'|] eqn:E; [|discriminate].
    intros [= <-]. exact (G _ _ _ E).
  - destruct (match_at _ pos (a :: text)) as [mo'|] eqn:E.
    + intros [= <-]. exact (G _ _ _ E).
    + apply IH.
Qed.

Lemma Matches_Plus_digit w : Matches (Plus digit) w -> is_number w = true.
Proof.
  intros H. unfold Plus in H. apply Matches_Cat_inv in H.
  destruct H as (w1 & w2 & -> & H1 & H2).
  apply Matches_Cls_inv in H1. destruct H1 as (a & -> & Ha).
  apply Matches_Star_Cls in H2. unfold is_number. simpl. now rewrite Ha, H2.
Qed.

(** ** The format of the age *)

Lemma string_of_uint_digits u :
  forallb is_digit (lit (NilEmpty.string_of_uint u)) = true.
Proof. induction u; simpl; try reflexivity; exact IHu. Qed.

(** [str(n)] of a number that is not negative is a string of digits. *)
Lemma str_of_Z_number z : (0 <= z)%Z -> is_number (str_of_Z z) = true.
Proof.
  intros H. unfold str_of_Z, is_number.
  assert (E : exists u, Z.to_int z = Decimal.Pos u /\ u <> Decimal.Nil).
  { destruct z as [|p|p]; [eexists; split; [reflexivity | discriminate] | | lia].
    exists (Pos.to_uint p). split; [reflexivity|].
    apply DecimalPos.Unsigned.to_uint_nonnil. }
  destruct E as (u & -> & Hu). simpl NilZero.string_of_int.
  unfold NilZero.string_of_uint.
  destruct u; try congruence;
    (apply andb_true_intro; split;
     [reflexivity | apply (string_of_uint_digits (_ u)) || apply string_of_uint_digits]).
Qed.

Lemma days_group_number text mo :
  search days_re text = Some mo ->
  exists tail, m_text mo = group 1 mo ++ tail /\ is_number (group 1 mo) = true.
Proof.
  intros H.
  destruct (@search_leading_group 1 (Plus digit)
              (Seq [Star space; ChrI "d"; Opt (Seq [WordI "ay"; Opt (ChrI "s")]);
                    Plus space; WordI "ago"]) text mo eq_refl H) as (tail & E & M).
  exists tail. split; [exact E | now apply Matches_Plus_digit].
Qed.

(** Whatever the text, the age is ["Unknown"] or a string of decimal
    digits: never a negative number, never other text. *)
Lemma days_running_unknown_or_number (pg : page) :
  extract_days_running pg = unknown \/ is_number (extract_days_running pg) = true.
Proof.
  unfold extract_days_running. destruct (created_text pg) as [text|]; [|now left].
  unfold days_of_text.
  destruct (search hours_re text); [now right|].
  destruct (search days_re text) as [mo|] eqn:D.
  - right. destruct (days_group_number _ D) as (_ & _ & H). exact H.
  - destruct (search date_re text); [|now left].
    destruct (strptime_BdY _); [|now left].
    destruct (0 <=? _)%Z eqn:E; [|now left].
    right. apply str_of_Z_number. now apply Z.leb_le.
Qed.

(** ** The order of the age rules *)

Lemma search_none r text : ~ has_match r text -> search r text = None.
Proof.
  intros H. destruct (search r text) as [mo|] eqn:E; [|reflexivity].
  exfalso. apply H. destruct (search_sound _ _ E) as (pre & Ht & M).
  now exists pre, (m_text mo), (m_rest mo).
Qed.

(** C3 as stated fails: [extract_days_running] has three rules and no
    metadata rule.  On a page whose text has no hours, days or date phrase
    and whose metadata carries the publication date 2025-10-01, the spec's
    fourth rule gives ["25"]; the code reads no metadata and gives
    ["Unknown"]. *)
Lemma age_metadata_rule_counterexample :
  created_text no_phrase_page = Some (lit "Help Max recover. Organizer: Jane Doe") /\
  normalize_age_spec (lit "Help Max recover. Organizer: Jane Doe")
                     (Some (mk_date 2025 10 1)) = lit "25" /\
  extract_days_running no_phrase_page = unknown /\
  extract_days_running no_phrase_page
  <> normalize_age_spec (lit "Help Max recover. Organizer: Jane Doe")
                        (Some (mk_date 2025 10 1)).
Proof. vm_compute. repeat split. discriminate. Qed.

(** C3, as the code has it.  On the text the rules run on, the age is
    decided by the first rule that matches, in the order hours, days,
    absolute date, and there is no fourth rule:
    - a text with a relative-hours phrase gives ["0"], whatever else it
      holds (a days phrase, a parseable absolute date);
    - without an hours phrase, a text with a relative-days phrase gives the
      number that opens the first such phrase, digit for digit, whatever
      date it also holds;
    - without an hours or days phrase, a text whose first [Created ...]
      date parses gives the whole days from that date to 2025-10-26, or
      ["Unknown"] when the date is later;
    - without any of the three the age is ["Unknown"]. *)
Theorem age_rules_in_order (pg : page) (text : str) :
  created_text pg = Some text ->
  (has_hours_phrase text -> extract_days_running pg = lit "0") /\
  (~ has_hours_phrase text -> has_match days_re text ->
   exists days_match tail,
     search days_re text = Some days_match /\
     m_text days_match = group 1 days_match ++ tail /\
     is_number (group 1 days_match) = true /\
     extract_days_running pg = group 1 days_match) /\
  (~ has_hours_phrase text -> ~ has_match days_re text ->
   forall date_match created,
     search date_re text = Some date_match ->
     strptime_BdY (date_str date_match) = Some created ->
     extract_days_running pg
     = if (0 <=? toordinal today - toordinal created)%Z
       then str_of_Z (toordinal today - toordinal created)
       else unknown) /\
  (~ has_hours_phrase text -> ~ has_match days_re text ->
   ~ has_absolute_date text ->
   extract_days_running pg = unknown).
Proof.
  intros Ht. unfold extract_days_running. rewrite Ht. unfold days_of_text.
  repeat split.
  - intros Hh. apply search_complete in Hh.
    destruct (search hours_re text); [reflexivity | congruence].
  - intros Hh Hd. rewrite (search_none Hh). apply search_complete in Hd.
    destruct (search days_re text) as [days_match|] eqn:D; [|congruence].
    destruct (days_group_number _ D) as (tail & E & N).
    exists days_match, tail. repeat split; assumption || reflexivity.
  - intros Hh Hd date_match created Hm Hp.
    rewrite (search_none Hh), (search_none Hd), Hm, Hp. reflexivity.
  - intros Hh Hd Ha. rewrite (search_none Hh), (search_none Hd).
    destruct (search date_re text) as [date_match|] eqn:Hm; [|reflexivity].
    destruct (strptime_BdY (date_str date_match)) as [created|] eqn:Hp;
      [|reflexivity].
    exfalso. apply Ha. now exists date_match, created.
Qed.

Lemma age_rules_in_order_witness :
  extract_days_running hours_and_date_page = lit "0" /\
  extract_days_running date_only_page = lit "25".
Proof.
  split.
  - destruct (@age_rules_in_order hours_and_date_page
                (lit "Created October 1, 2025 - updated 3 hrs ago") eq_refl)
      as (H & _).
    apply H.
    exists (lit "Created October 1, 2025 - updated "), (lit "3 hrs ago"), [].
    split; [reflexivity | apply Matches_check; vm_compute; reflexivity].
  - destruct (@age_rules_in_order date_only_page
                (lit "Organizer: Jane Doe. Created October 1, 2025") eq_refl)
      as (_ & _ & H & _).
    assert (Hh : ~ has_hours_phrase (lit "Organizer: Jane Doe. Created October 1, 2025")).
    { intros M. apply search_complete in M. apply M. vm_compute. reflexivity. }
    assert (Hd : ~ has_match days_re (lit "Organizer: Jane Doe. Created October 1, 2025")).
    { intros M. apply search_complete in M. apply M. vm_compute. reflexivity. }
    destruct (search date_re (lit "Organizer: Jane Doe. Created October 1, 2025"))
      as [date_match|] eqn:Hm; vm_compute in Hm; [|discriminate].
    injection Hm as Hm.
    rewrite (H Hh Hd date_match (mk_date 2025 10 1)).
    + vm_compute. reflexivity.
    + reflexivity.
    + subst date_match. vm_compute. reflexivity.
Defined.

(** The three rules on one text each: the hours phrase wins over a days
    phrase and a date, the days phrase over a date. *)
Example age_rule_order :
  days_of_text (lit "Created October 1, 2025, 5 days ago, 3 hrs ago") = lit "0" /\
  days_of_text (lit "Created October 1, 2025, 5 days ago") = lit "5" /\
  days_of_text (lit "Created October 1, 2025") = lit "25" /\
  days_of_text (lit "Created by Jane Doe") = unknown.
Proof. vm_compute. repeat split. Qed.

(** X6. Without an hours phrase, a text with a relative-days phrase is dated by
    it, whatever else it holds: the age is the number that opens the first
    such phrase, digit for digit. *)
Theorem days_rule_returns_number_as_written (text : str) :
  has_match days_re text -> search hours_re text = None ->
  exists days_match tail,
    search days_re text = Some days_match /\
    days_of_text text = group 1 days_match /\
    m_text days_match = group 1 days_match ++ tail /\
    is_number (group 1 days_match) = true.
Proof.
  intros Hd Hh. apply search_complete in Hd.
  destruct (search days_re text) as [mo|] eqn:D; [|congruence].
  destruct (days_group_number _ D) as (tail & E & N).
  exists mo, tail. repeat split; try assumption.
  unfold days_of_text. now rewrite Hh, D.
Qed.

Lemma days_rule_returns_number_as_written_witness :
  exists days_match tail,
    search days_re (lit "Created 007 days ago, on October 1, 2025") = Some days_match /\
    days_of_text (lit "Created 007 days ago, on October 1, 2025") = group 1 days_match /\
    m_text days_match = group 1 days_match ++ tail /\
    is_number (group 1 days_match) = true.
Proof.
  apply days_rule_returns_number_as_written.
  - exists (lit "Created "), (lit "007 days ago"), (lit ", on October 1, 2025").
    split; [reflexivity | apply Matches_check; vm_compute; reflexivity].
  - vm_compute. reflexivity.
Defined.

Example days_as_written :
  days_of_text (lit "Created 007 days ago, on October 1, 2025") = lit "007".
Proof. vm_compute. reflexivity. Qed.

Lemma absolute_date_future_unknown_witness :
  days_of_text (lit "Created January 1, 2030") = unknown.
Proof.
  eapply (@absolute_date_future_unknown (lit "Created January 1, 2030")).
  - vm_compute. reflexivity.
  - vm_compute. reflexivity.
  - vm_compute. reflexivity.
  - vm_compute. reflexivity.
  - vm_compute. reflexivity.
Defined.

(** ** The fields of [extract_campaign_details] *)

Lemma digit_value_nonneg c : is_digit c = true -> (0 <= digit_value c)%Z.
Proof.
  unfold is_digit, digit_value. intros H. apply andb_prop in H.
  destruct H as [H _]. apply N.leb_le in H. lia.
Qed.

Lemma int_of_digits_nonneg t :
  forallb is_digit t = true -> (0 <= int_of_digits t)%Z.
Proof.
  unfold int_of_digits.
  assert (G : forall acc, (0 <= acc)%Z -> forallb is_digit t = true ->
            (0 <= fold_left (fun acc c => 10 * acc + digit_value c) t acc)%Z).
  { induction t as [|c t IH]; intros acc Hacc H; cbn [fold_left]; [assumption|].
    simpl in H. apply andb_prop in H. destruct H as [Hc H].
    apply IH; [|assumption]. pose proof (digit_value_nonneg _ Hc). lia. }
  apply G. lia.
Qed.

Lemma strip_amount_digits a :
  Matches amount_re a -> forallb is_digit (strip_amount a) = true.
Proof.
  intros H. apply amount_token_shape in H. destruct H as (body & -> & _ & Hb).
  rewrite (strip_amount_token _ Hb). apply filter_digits_forallb.
Qed.

Lemma amounts_numeric_nonneg amounts : forall ns,
  Forall (Matches amount_re) amounts ->
  amounts_numeric amounts = Some ns -> Forall (fun n => (0 <= n)%Z) ns.
Proof.
  induction amounts as [|a amounts IH]; intros ns Ht; simpl.
  - intros [= <-]. constructor.
  - inversion Ht as [|? ? Ha Ht']; subst.
    rewrite (py_int_token Ha).
    destruct (existsb is_digit a && (length (strip_amount a) <=? int_max_str_digits));
      [|discriminate].
    destruct (amounts_numeric amounts) as [ns'|]; [|discriminate].
    intros [= <-]. constructor.
    + apply int_of_digits_nonneg, strip_amount_digits, Ha.
    + now apply IH.
Qed.

Lemma fold_left_max_ge l : forall x, (x <= fold_left Z.max l x)%Z.
Proof.
  induction l as [|y l IH]; intros x; simpl; [lia|].
  specialize (IH (Z.max x y)). lia.
Qed.

Lemma max_of_nonneg ns : Forall (fun n => (0 <= n)%Z) ns -> (0 <= max_of ns)%Z.
Proof.
  intros H. destruct ns as [|x l]; simpl; [lia|].
  inversion H; subst. pose proof (fold_left_max_ge l x). lia.
Qed.

(** Whatever the page text, [amount_raised] is a string of decimal digits:
    no [$], no comma, no sign, never empty. *)
Lemma amount_raised_is_number (page_text : str) :
  is_number (amount_raised page_text) = true.
Proof.
  unfold amount_raised.
  destruct (nonempty_list (findall amount_re page_text)); [|reflexivity].
  destruct (amounts_numeric (findall amount_re page_text)) as [ns|] eqn:E;
    [|reflexivity].
  apply str_of_Z_number, max_of_nonneg.
  eapply amounts_numeric_nonneg; [apply findall_amount_tokens | exact E].
Qed.

Lemma desc_loop_spec cands : forall description,
  desc_loop cands description
  = match find long_enough cands with
    | Some (Some v) => v
    | _ => last_found cands description
    end.
Proof.
  induction cands as [|cand cands IH]; intros d; [reflexivity|].
  destruct cand as [[s|]|]; simpl.
  - destruct (nonempty s && (20 <? length s)); [reflexivity|].
    rewrite IH. reflexivity.
  - rewrite IH. reflexivity.
  - rewrite IH. reflexivity.
Qed.

Lemma description_of_length (pg : page) : length (description_of pg) <= 500.
Proof.
  unfold description_of. destruct (desc_loop _ _) as [s|];
    [apply firstn_le_length | apply Nat.le_0_l].
Qed.

(** X8. The description is at most 500 characters long, whichever selector
    gave it.  It is the text of the first selector (in the order of
    [desc_selectors]) that gives more than 20 characters; when none does,
    it is what the last lookup that did not raise gave, be it shorter,
    empty or a missing [content] -- a short text found earlier is dropped
    for it. *)
Theorem description_first_long_else_last (pg : page) :
  length (description_of pg) <= 500 /\
  (forall s, find long_enough (desc_candidates pg) = Some (Some (Some s)) ->
     description_of pg = firstn 500 s) /\
  (find long_enough (desc_candidates pg) = None ->
     description_of pg
     = match last_found (desc_candidates pg) (Some []) with
       | Some s => firstn 500 s
       | None => []
       end).
Proof.
  split; [apply description_of_length|].
  unfold description_of. rewrite desc_loop_spec. split.
  - intros s ->. reflexivity.
  - intros ->. reflexivity.
Qed.

Lemma description_first_long_else_last_witness :
  description_of long_second_page = lit "Max needs surgery after an accident." /\
  description_of short_then_blank_page = [].
Proof.
  destruct (description_first_long_else_last long_second_page) as (_ & H1 & _).
  destruct (description_first_long_else_last short_then_blank_page) as (_ & _ & H2).
  split.
  - rewrite (H1 (lit "Max needs surgery after an accident.")); reflexivity.
  - rewrite H2; reflexivity.
Defined.

(** X9. Every record [extract_campaign_details] returns, on success or on
    failure, carries the URL it was asked for, an amount that is a string
    of digits, a description of at most 500 characters and an age that is
    ["Unknown"] or a string of digits. *)
Theorem record_fields_well_formed (fetched : option page) (url : str) :
  let r := extract_campaign_details fetched url in
  dict_get (lit "url") r = Some (PStr url) /\
  (exists a, dict_get (lit "amount_raised") r = Some (PStr a) /\
             is_number a = true) /\
  (exists d, dict_get (lit "description") r = Some (PStr d) /\ length d <= 500) /\
  (exists t, dict_get (lit "days_running") r = Some (PStr t) /\
             (t = unknown \/ is_number t = true)).
Proof.
  assert (D : forall u, let r := default_record u in
    dict_get (lit "url") r = Some (PStr u) /\
    (exists a, dict_get (lit "amount_raised") r = Some (PStr a) /\
               is_number a = true) /\
    (exists d, dict_get (lit "description") r = Some (PStr d) /\ length d <= 500) /\
    (exists t, dict_get (lit "days_running") r = Some (PStr t) /\
               (t = unknown \/ is_number t = true))).
  { intros u. repeat split.
    - exists (lit "0"). now split.
    - exists []. split; [reflexivity | apply Nat.le_0_l].
    - exists unknown. split; [reflexivity | now left]. }
  unfold extract_campaign_details.
  destruct fetched as [pg|]; [|apply D].
  destruct (body_text pg) as [page_text|]; [|apply D].
  repeat split.
  - exists (amount_raised page_text). split; [reflexivity|].
    apply amount_raised_is_number.
  - exists (description_of pg). split; [reflexivity|].
    apply description_of_length.
  - exists (extract_days_running pg). split; [reflexivity|].
    apply days_running_unknown_or_number.
Qed.

(** ** The detail loop under any signal *)

Lemma extract_all_details_prefix fetch sig : forall urls i campaigns,
  exists k,
    k <= length urls /\
    fst (extract_all_details fetch sig i urls campaigns)
    = campaigns ++ details_of fetch i (firstn k urls) /\
    (snd (extract_all_details fetch sig i urls campaigns) = false ->
     k = length urls).
Proof.
  induction urls as [|u urls IH]; intros i campaigns; simpl.
  - exists 0. rewrite app_nil_r. repeat split; lia.
  - destruct (sig i).
    + destruct (IH (S i) (campaigns ++ [extract_campaign_details (fetch i u) u]))
        as (k & Hk & E & F).
      exists (S k). rewrite E. simpl. rewrite <- app_assoc.
      repeat split; [lia | intros H; rewrite (F H); reflexivity].
    + exists 0. simpl. rewrite app_nil_r. repeat split; [lia | discriminate].
    + exists 1. simpl. repeat split; [lia | discriminate].
Qed.

(** X10. Whenever and wherever the signal comes, [self.campaigns] keeps the
    records it had and gains the records of the first [k] URLs, in order,
    for some [k]; when the loop was not interrupted, [k] is all of them. *)
Theorem detail_loop_appends_prefix
    (fetch : nat -> str -> option page) (sig : nat -> signal)
    (urls : list str) (campaigns : list dict) :
  exists k,
    k <= length urls /\
    fst (extract_all_details fetch sig 0 urls campaigns)
    = campaigns ++ details_of fetch 0 (firstn k urls) /\
    (snd (extract_all_details fetch sig 0 urls campaigns) = false ->
     k = length urls).
Proof. apply extract_all_details_prefix. Qed.

Lemma detail_loop_appends_prefix_witness :
  exists k,
    k <= length three_urls /\
    fst (extract_all_details (fun _ _ => None) (fun _ => Quiet) 0 three_urls [])
    = [] ++ details_of (fun _ _ => None) 0 (firstn k three_urls) /\
    (snd (extract_all_details (fun _ _ => None) (fun _ => Quiet) 0 three_urls [])
     = false -> k = length three_urls).
Proof.
  apply (detail_loop_appends_prefix (fun _ _ => None) (fun _ => Quiet) three_urls []).
Defined.

(** ** Campaign cards *)

Lemma m_inner_group n r0 r1 r2 s c rest c' :
  no_grp n r2 = true ->
  In (rest, c') (m (Cat r0 (Cat (Grp n r1) r2)) s c) ->
  exists w, Matches r1 w /\ lookup_group n c' = Some w.
Proof.
  intros Hn H. simpl m in H. apply in_flat_map in H.
  destruct H as ([s0 c0] & _ & H). simpl fst in H. simpl snd in H.
  destruct (@m_leading_group n r1 r2 s0 c0 rest c' Hn H) as (w & _ & _ & M & L).
  exists w. now split.
Qed.

Lemma search_inner_group n r0 r1 r2 text mo :
  no_grp n r2 = true ->
  search (Cat r0 (Cat (Grp n r1) r2)) text = Some mo ->
  Matches r1 (group n mo).
Proof.
  intros Hn. unfold search. generalize 0. revert mo.
  assert (G : forall pos s mo,
            match_at (Cat r0 (Cat (Grp n r1) r2)) pos s = Some mo ->
            Matches r1 (group n mo)).
  { intros pos s mo. unfold match_at.
    destruct (m (Cat r0 (Cat (Grp n r1) r2)) s []) as [|[rest c] l] eqn:E;
      [discriminate|].
    intros [= <-]. unfold group. simpl.
    destruct (@m_inner_group n r0 r1 r2 s [] rest c Hn) as (w & M & L);
      [rewrite E; now left|].
    now rewrite L. }
  induction text as [|a text IH]; intros mo pos; simpl.
  - destruct (match_at _ pos []) as [mo'|] eqn:E; [|discriminate].
    intros [= <-]. exact (G _ _ _ E).
  - destruct (match_at _ pos (a :: text)) as [mo'|] eqn:E.
    + intros [= <-]. exact (G _ _ _ E).
    + apply IH.
Qed.

Lemma remove_commas_digits w :
  forallb (fun c => is_digit c || chr_eqb c ",") w = true ->
  forallb is_digit (remove_commas w) = true.
Proof.
  unfold remove_commas. induction w as [|c w IH]; [reflexivity|].
  simpl. intros H. apply andb_prop in H. destruct H as [Hc H].
  destruct (chr_eqb c ",") eqn:E; simpl; [now apply IH|].
  rewrite orb_false_r in Hc. rewrite Hc. now apply IH.
Qed.

Lemma card_amount_digits cd : forallb is_digit (card_amount cd) = true.
Proof.
  unfold card_amount.
  assert (G : forall t, forallb is_digit
                match search card_amount_re t with
                | Some amount_match => remove_commas (group 1 amount_match)
                | None => lit "0"
                end = true).
  { intros t. destruct (search card_amount_re t) as [mo|] eqn:E; [|reflexivity].
    apply remove_commas_digits.
    pose proof (@search_inner_group 1 (Opt (Chr "$"))
                  (Plus (Cls (fun c => is_digit c || chr_eqb c ","))) Eps t mo
                  eq_refl E) as M.
    unfold Plus in M. apply Matches_Cat_inv in M.
    destruct M as (w1 & w2 & -> & M1 & M2).
    apply Matches_Cls_inv in M1. destruct M1 as (a & -> & Ha).
    apply Matches_Star_Cls in M2. simpl. now rewrite Ha, M2. }
  destruct (card_amount_span cd); [apply G|].
  destruct (card_dollar_text cd) as [t|]; [|reflexivity].
  destruct (nonempty t); [apply G | reflexivity].
Qed.

Lemma split_last_spec sep s :
  exists prefix,
    s = prefix ++ split_last sep s /\ ~ In sep (split_last sep s) /\
    (prefix = [] \/ exists p, prefix = p ++ [sep]).
Proof.
  unfold split_last.
  assert (G : forall t, exists q,
            t = split_head sep t ++ q /\ (q = [] \/ exists q', q = sep :: q')).
  { induction t as [|a t IH]; simpl.
    - exists []. split; [reflexivity | now left].
    - destruct (chr_eqb a sep) eqn:E.
      + apply chr_eqb_eq in E. subst a. exists (sep :: t). split; [reflexivity|].
        right. now exists t.
      + destruct IH as (q & Hq & Hs). exists q. split; [|assumption].
        simpl. now rewrite <- Hq. }
  destruct (G (rev s)) as (q & Hq & Hs).
  exists (rev q). repeat split.
  - rewrite <- rev_app_distr, <- Hq. now rewrite rev_involutive.
  - intros H. apply in_rev in H. now apply split_head_not_In in H.
  - destruct Hs as [->|[q' ->]]; [now left|]. right. exists (rev q'). reflexivity.
Qed.

(** X12. A card gives a record exactly when its campaign link has an [href] that
    is not empty.  Then [url] is the base URL followed by the [href], [id]
    is the part of the [href] after its last slash, and [amount_raised]
    holds nothing but digits. *)
Theorem card_record_identity_and_amount (base_url : str) (cd : card) :
  (extract_campaign_data base_url cd = None <->
   forall href, card_link cd = Some (Some href) -> href = []) /\
  (forall data, extract_campaign_data base_url cd = Some data ->
     exists href prefix id a,
       card_link cd = Some (Some href) /\
       dict_get (lit "url") data = Some (PStr (base_url ++ href)) /\
       dict_get (lit "id") data = Some (PStr id) /\
       href = prefix ++ id /\ ~ In slash id /\
       (prefix = [] \/ exists p, prefix = p ++ [slash]) /\
       dict_get (lit "amount_raised") data = Some (PStr a) /\
       forallb is_digit a = true).
Proof.
  unfold extract_campaign_data. split.
  - destruct (card_link cd) as [[[|c h]|]|]; split; try discriminate;
      try reflexivity; try (intros _ href [= <-]; reflexivity);
      try (intros _ href [=]).
    intros H. specialize (H _ eq_refl). discriminate.
  - intros data. destruct (card_link cd) as [[[|c h]|]|]; try discriminate.
    intros [= <-].
    destruct (split_last_spec slash (c :: h)) as (prefix & E & Hn & Hp).
    exists (c :: h), prefix, (split_last slash (c :: h)), (card_amount cd).
    repeat split; try assumption. apply card_amount_digits.
Qed.

Lemma card_record_identity_and_amount_witness :
  exists href prefix id a,
    card_link sample_card = Some (Some href) /\
    dict_get (lit "url") sample_card_record
      = Some (PStr (lit "https://www.gofundme.com" ++ href)) /\
    dict_get (lit "id") sample_card_record = Some (PStr id) /\
    href = prefix ++ id /\ ~ In slash id /\
    (prefix = [] \/ exists p, prefix = p ++ [slash]) /\
    dict_get (lit "amount_raised") sample_card_record = Some (PStr a) /\
    forallb is_digit a = true.
Proof.
  destruct (card_record_identity_and_amount (lit "https://www.gofundme.com") sample_card)
    as [_ H].
  apply (H sample_card_record). vm_compute. reflexivity.
Defined.

(** The spec's card scenarios. *)
Example card_amount_scenarios :
  card_amount sample_card = lit "1250" /\
  card_amount (mk_card None None None None None (Some (lit "nothing yet")) None)
    = lit "0" /\
  card_amount (mk_card None None None None None None None) = lit "0" /\
  card_amount (mk_card None None None None None (Some (lit ", so far")) None) = [].
Proof. vm_compute. repeat split. Qed.

(** ** [get_campaign_details]: the fallbacks *)

(** X13. Without a JSON description that counts as true -- no script, a script
    that does not parse, JSON that is not an object, no ["description"]
    key, or an empty, null or zero value -- the description is the first
    500 characters of the description/story element, or [''] without one. *)
Theorem description_falls_back_to_element (sp : soup) :
  (forall structured_data,
     ld_json sp = Some (Some (PDict structured_data)) ->
     truthy (dict_get_default (lit "description") (PStr []) structured_data) = false) ->
  description_field sp
  = PStr (match desc_elem sp with Some t => firstn 500 t | None => [] end).
Proof.
  intros H. unfold description_field.
  destruct (ld_json sp) as [[v|]|]; try (destruct (desc_elem sp); reflexivity).
  destruct v as [| | | | |d]; try (destruct (desc_elem sp); reflexivity).
  rewrite (H d eq_refl). destruct (desc_elem sp); reflexivity.
Qed.

Lemma description_falls_back_to_element_witness :
  description_field null_description_soup = PStr (lit "The story of Max").
Proof.
  apply (description_falls_back_to_element null_description_soup).
  intros d [= <-]. reflexivity.
Defined.

Section MetadataAge.

Variable fromisoformat : str -> option datetime.
Variable now : datetime.

(** X14. On the metadata path [days_running] is ["Unknown"] exactly when the
    tag is missing, has no [content], or the timestamp does not parse;
    for a timestamp that parses and is not later than [now] it is the
    number of whole days elapsed, which is not negative. *)
Theorem metadata_age_whole_days (sp : soup) :
  (days_running_field fromisoformat now sp = PStr unknown <->
   forall content created,
     meta_published sp = Some (Some content) ->
     fromisoformat (replace_Z content) <> Some created) /\
  (forall content created,
     meta_published sp = Some (Some content) ->
     fromisoformat (replace_Z content) = Some created ->
     (timestamp created <= timestamp now)%Z ->
     exists n,
       days_running_field fromisoformat now sp = PInt n /\ (0 <= n)%Z /\
       (n * usec_per_day <= timestamp now - timestamp created
        < (n + 1) * usec_per_day)%Z).
Proof.
  unfold days_running_field. split.
  - destruct (meta_published sp) as [[content|]|].
    + destruct (fromisoformat (replace_Z content)) as [created|] eqn:E.
      * split; [discriminate|]. intros H. exfalso.
        apply (H content created eq_refl). exact E.
      * split; [|reflexivity]. intros _ c cr [= <-]. congruence.
    + split; [|reflexivity]. intros _ c cr [=].
    + split; [|reflexivity]. intros _ c cr [=].
  - intros content created -> -> Hle. exists (delta_days now created).
    split; [reflexivity|]. unfold delta_days, usec_per_day.
    split; [apply Z.div_pos; lia|].
    pose proof (Z.div_mod (timestamp now - timestamp created) 86400000000
                  ltac:(lia)) as Hd.
    pose proof (Z.mod_pos_bound (timestamp now - timestamp created) 86400000000
                  ltac:(lia)) as Hm.
    lia.
Qed.

End MetadataAge.

Lemma metadata_age_whole_days_witness :
  exists n,
    days_running_field iso_2025_10_01 (mk_datetime today 0) past_meta_soup = PInt n /\
    (0 <= n)%Z /\
    (n * usec_per_day
     <= timestamp (mk_datetime today 0)
        - timestamp (mk_datetime (mk_date 2025 10 1) 43200000000)
     < (n + 1) * usec_per_day)%Z.
Proof.
  destruct (metadata_age_whole_days iso_2025_10_01 (mk_datetime today 0) past_meta_soup)
    as [_ H].
  apply (H (lit "2025-10-01T12:00:00Z")).
  - reflexivity.
  - reflexivity.
  - vm_compute. discriminate.
Defined.

Example metadata_age_value :
  days_running_field iso_2025_10_01 (mk_datetime today 0) past_meta_soup = PInt 24.
Proof. vm_compute. reflexivity. Qed.

(** ** [scrape_campaigns] *)

Lemma dict_get_update_other k other : forall d,
  mem k (keys other) = false ->
  dict_get k (dict_update other d) = dict_get k d.
Proof.
  unfold dict_update. induction other as [|[k0 v0] other IH]; intros d H; simpl.
  - reflexivity.
  - simpl in H. apply orb_false_iff in H. destruct H as [Hk H].
    rewrite (IH _ H). now apply dict_get_set_other.
Qed.

Lemma dict_get_update_in k v other : forall d,
  NoDup (keys other) -> dict_get k other = Some v ->
  dict_get k (dict_update other d) = Some v.
Proof.
  unfold dict_update. induction other as [|[k0 v0] other IH]; intros d Hnd H; simpl.
  - discriminate.
  - simpl in Hnd, H. inversion Hnd as [|? ? Hk0 Hnd']; subst.
    destruct (str_eqb k k0) eqn:E.
    + apply str_eqb_eq in E. subst k0. injection H as ->.
      fold (dict_update other (dict_set k v d)).
      rewrite dict_get_update_other; [apply dict_get_set_same|].
      now apply mem_not_In.
    + now apply IH.
Qed.

Lemma details_keys fromisoformat now response :
  keys (get_campaign_details fromisoformat now response) = [] \/
  keys (get_campaign_details fromisoformat now response)
    = [lit "description"; lit "days_running"] \/
  keys (get_campaign_details fromisoformat now response)
    = [lit "description"; lit "created_date"; lit "days_running"].
Proof.
  destruct response as [sp|]; [|now left]. right.
  unfold get_campaign_details.
  destruct (date_elem sp) as [[t|]|]; [right | left | right]; reflexivity.
Qed.

(** X15. The details of a campaign page are merged into the card's record
    without touching what the card gave: [url], [id], [image_url], [title]
    and [amount_raised] stay as they were, and a failed request leaves the
    record as it was.  When the page was fetched the record carries its
    description and its age. *)
Theorem details_keep_summary_fields
    (fromisoformat : str -> option datetime) (now : datetime)
    (campaign : dict) (response : option soup) :
  let merged := dict_update (get_campaign_details fromisoformat now response)
                            campaign in
  (forall k, In k summary_fields -> dict_get k merged = dict_get k campaign) /\
  (response = None -> merged = campaign) /\
  (forall sp, response = Some sp ->
     dict_get (lit "description") merged = Some (description_field sp) /\
     dict_get (lit "days_running") merged
     = Some (days_running_field fromisoformat now sp)).
Proof.
  intros merged. subst merged. repeat split.
  - intros k Hk. apply dict_get_update_other.
    destruct (details_keys fromisoformat now response) as [E|[E|E]];
      rewrite E;
      simpl in Hk; repeat (destruct Hk as [<-|Hk]; [reflexivity|]);
      contradiction.
  - intros ->. reflexivity.
  - subst response. apply dict_get_update_in.
    + destruct (details_keys fromisoformat now (Some sp)) as [E|[E|E]];
        rewrite E; repeat constructor; simpl;
        intros H; repeat (destruct H as [H|H]; try discriminate H); exact H.
    + unfold get_campaign_details. rewrite dict_get_set_other by reflexivity.
      destruct (date_elem sp) as [[t|]|];
        rewrite ?dict_get_set_other by reflexivity; apply dict_get_set_same.
  - subst response. apply dict_get_update_in.
    + destruct (details_keys fromisoformat now (Some sp)) as [E|[E|E]];
        rewrite E; repeat constructor; simpl;
        intros H; repeat (destruct H as [H|H]; try discriminate H); exact H.
    + unfold get_campaign_details. apply dict_get_set_same.
Qed.

Lemma details_keep_summary_fields_witness :
  dict_get (lit "amount_raised")
    (dict_update (get_campaign_details iso_2030 (mk_datetime today 0) (Some max_soup))
                 sample_card_record)
  = dict_get (lit "amount_raised") sample_card_record.
Proof.
  destruct (details_keep_summary_fields iso_2030 (mk_datetime today 0)
              sample_card_record (Some max_soup)) as [H _].
  apply H. simpl. tauto.
Defined.

Section ScrapeFacts.

Variable fromisoformat : str -> option datetime.
Variable now : datetime.
Variable base_url : str.
Variable fetch_soup : str -> option soup.

Lemma scrape_page_campaigns_spec max : forall page_campaigns total campaigns,
  (total <= max)%Z ->
  exists added,
    scrape_page_campaigns fromisoformat now fetch_soup max page_campaigns
      total campaigns
    = ((total + len added)%Z, campaigns ++ added) /\
    (total + len added <= max)%Z /\
    length added <= length page_campaigns.
Proof.
  induction page_campaigns as [|c rest IH]; intros total campaigns Ht;
    cbn [scrape_page_campaigns].
  - exists []. unfold len. cbn [length]. rewrite app_nil_r, Z.add_0_r.
    repeat split; lia.
  - destruct (max <=? total)%Z eqn:C.
    + exists []. unfold len. cbn [length]. rewrite app_nil_r, Z.add_0_r.
      repeat split; lia.
    + apply Z.leb_gt in C.
      match goal with
      | |- context [scrape_page_campaigns _ _ _ _ rest _ (campaigns ++ [?r])] =>
          set (rec := r)
      end.
      destruct (IH (total + 1)%Z (campaigns ++ [rec]) ltac:(lia))
        as (added & E & Hle & Hlen).
      exists (rec :: added). rewrite E. unfold len in *. cbn [length].
      rewrite <- app_assoc. cbn [app].
      repeat split; [f_equal; lia | lia | lia].
Qed.

Lemma scrape_loop_spec listing max max_pages : forall fuel page total campaigns,
  (total <= max)%Z ->
  exists added,
    scrape_loop fromisoformat now base_url listing fetch_soup fuel max max_pages
      page total campaigns = campaigns ++ added /\
    (total + len added <= max)%Z.
Proof.
  induction fuel as [|fuel IH]; intros page total campaigns Ht; cbn [scrape_loop].
  - exists []. unfold len. simpl. rewrite app_nil_r. split; [reflexivity | lia].
  - destruct ((total <? max)%Z && (page <=? max_pages)%Z);
      [|exists []; unfold len; simpl; rewrite app_nil_r; split; [reflexivity | lia]].
    destruct (scrape_category_page base_url (listing page)) as [|c pcs];
      [exists []; unfold len; simpl; rewrite app_nil_r; split; [reflexivity | lia]|].
    destruct (scrape_page_campaigns_spec (c :: pcs) campaigns Ht)
      as (added1 & E1 & Hle1 & _).
    rewrite E1.
    destruct (IH (page + 1)%Z (total + len added1)%Z (campaigns ++ added1) Hle1)
      as (added2 & E2 & Hle2).
    exists (added1 ++ added2). rewrite E2, app_assoc. split; [reflexivity|].
    unfold len in *. rewrite length_app. lia.
Qed.

(** X16. [scrape_campaigns] keeps the records already in [self.campaigns] and
    appends at most [max_campaigns] new ones, however many cards the
    listing pages show. *)
Theorem scrape_campaigns_capped listing max max_pages campaigns :
  (0 <= max)%Z ->
  exists added,
    scrape_campaigns fromisoformat now base_url listing fetch_soup max max_pages
      campaigns = campaigns ++ added /\
    (len added <= max)%Z.
Proof.
  intros Hmax. unfold scrape_campaigns.
  destruct (@scrape_loop_spec listing max max_pages (Z.to_nat max_pages) 1 0
              campaigns Hmax) as (added & E & Hle).
  exists added. split; [exact E | lia].
Qed.

Lemma scrape_loop_stops_at_empty listing listing' max max_pages p :
  scrape_category_page base_url (listing p) = [] ->
  (forall q, (q <= p)%Z -> listing' q = listing q) ->
  forall fuel page total campaigns,
    (page <= p)%Z ->
    scrape_loop fromisoformat now base_url listing' fetch_soup fuel max max_pages
      page total campaigns
    = scrape_loop fromisoformat now base_url listing fetch_soup fuel max max_pages
        page total campaigns.
Proof.
  intros Hempty Hsame. induction fuel as [|fuel IH];
    intros page total campaigns Hp; cbn [scrape_loop]; [reflexivity|].
  destruct ((total <? max)%Z && (page <=? max_pages)%Z); [|reflexivity].
  rewrite (Hsame page Hp).
  destruct (scrape_category_page base_url (listing page)) as [|c pcs] eqn:E;
    [reflexivity|].
  destruct (scrape_page_campaigns fromisoformat now fetch_soup max (c :: pcs)
              total campaigns) as [total' campaigns'].
  apply IH.
  assert (page <> p) by (intros ->; congruence). lia.
Qed.

(** X17. The loop stops at the first listing page without a campaign: what the
    pages after it hold has no effect on the result. *)
Theorem scrape_stops_at_first_empty_page listing listing' max max_pages p campaigns :
  (1 <= p)%Z ->
  scrape_category_page base_url (listing p) = [] ->
  (forall q, (q <= p)%Z -> listing' q = listing q) ->
  scrape_campaigns fromisoformat now base_url listing' fetch_soup max max_pages
    campaigns
  = scrape_campaigns fromisoformat now base_url listing fetch_soup max max_pages
      campaigns.
Proof.
  intros Hp Hempty Hsame. unfold scrape_campaigns.
  now apply (@scrape_loop_stops_at_empty listing listing' max max_pages p).
Qed.

End ScrapeFacts.

Lemma scrape_campaigns_capped_witness :
  exists added,
    scrape_campaigns iso_2030 (mk_datetime today 0) (lit "https://www.gofundme.com")
      endless_listing (fun _ => None) 1 50 [] = [] ++ added /\
    (len added <= 1)%Z.
Proof.
  apply (@scrape_campaigns_capped iso_2030 (mk_datetime today 0)
           (lit "https://www.gofundme.com") (fun _ => None) endless_listing 1 50 []).
  lia.
Defined.

Lemma scrape_stops_at_first_empty_page_witness :
  scrape_campaigns iso_2030 (mk_datetime today 0) (lit "https://www.gofundme.com")
    endless_listing (fun _ => None) 10 50 []
  = scrape_campaigns iso_2030 (mk_datetime today 0) (lit "https://www.gofundme.com")
      one_page_listing (fun _ => None) 10 50 [].
Proof.
  apply (@scrape_stops_at_first_empty_page iso_2030 (mk_datetime today 0)
           (lit "https://www.gofundme.com") (fun _ => None)
           one_page_listing endless_listing 10 50 2 []).
  - lia.
  - reflexivity.
  - intros q Hq. unfold endless_listing.
    destruct (3 <=? q)%Z eqn:E; [apply Z.leb_le in E; lia | reflexivity].
Defined.

(** ** [process_campaigns]: which records reach the vision service *)

Section EnrichmentFacts.

Variable vision : str -> bool * dict.

Lemma sent_urls_one campaign :
  sent_urls [campaign]
  = match dict_get_default (lit "image_url") (PStr []) campaign with
    | PStr s => if nonempty s && starts_with (lit "http") s then [s] else []
    | _ => []
    end.
Proof.
  unfold sent_urls, http_image. cbn [flat_map]. rewrite app_nil_r.
  destruct (dict_get_default (lit "image_url") (PStr []) campaign); reflexivity.
Qed.

Lemma process_campaign_google campaign calls :
  image_url_is_text campaign = true ->
  title_sliceable campaign = true ->
  exists analysis,
    process_campaign_logged vision (lit "google") campaign calls
    = (calls ++ sent_urls [campaign],
       Ok (dict_set (lit "image_analysis") analysis campaign)).
Proof.
  rewrite sent_urls_one. unfold image_url_is_text, process_campaign_logged.
  destruct (dict_get_default (lit "image_url") (PStr []) campaign)
    as [| b | z | s | l | d] eqn:E; intros H Ht;
    try (apply negb_true_iff in H; rewrite H; cbn [negb];
         exists no_url_result; cbn [truthy nonempty negb]; cbv beta iota; rewrite ?app_nil_r; reflexivity).
  destruct s as [|c s]; [exists no_url_result; cbn [truthy nonempty negb]; cbv beta iota; rewrite ?app_nil_r; reflexivity|].
  cbn [truthy nonempty negb andb]. unfold bind at 1. unfold print_title.
  rewrite Ht. unfold ret at 1. cbv beta iota.
  unfold bind, analyze_image.
  cbn [truthy nonempty negb].
  destruct (starts_with (lit "http") (c :: s)) eqn:P; cbn [negb].
  - change (str_eqb (lit "google") (lit "google")) with true. cbv iota.
    unfold analyze_image_google. destruct (vision (c :: s)) as [success items].
    exists (PDict ((lit "success", PBool success) :: items)).
    reflexivity.
  - exists invalid_url_result. cbv beta iota. rewrite ?app_nil_r. reflexivity.
Qed.

Lemma process_campaign_azure campaign calls :
  title_sliceable campaign = true ->
  (exists campaign',
     process_campaign_logged vision (lit "azure") campaign calls
     = (calls, Ok campaign') /\
     http_image campaign = false) \/
  process_campaign_logged vision (lit "azure") campaign calls
  = (calls, Raise (lit "AttributeError")).
Proof.
  intros Ht. unfold process_campaign_logged, http_image.
  destruct (dict_get_default (lit "image_url") (PStr []) campaign)
    as [| b | z | s | l | d] eqn:E.
  - left. eexists. split; reflexivity.
  - destruct b; [right | left; eexists; split]; try reflexivity.
    cbn [truthy negb]. unfold bind at 1. unfold print_title. rewrite Ht.
    reflexivity.
  - destruct (truthy (PInt z)) eqn:T; cbn [negb];
      [right | left; eexists; split]; try reflexivity.
    unfold bind at 1. unfold print_title. rewrite Ht.
    unfold ret at 1. cbv beta iota. unfold bind, analyze_image. rewrite T.
    reflexivity.
  - destruct s as [|c s]; [left; eexists; split; reflexivity|].
    cbn [truthy nonempty negb andb]. unfold bind at 1. unfold print_title.
    rewrite Ht. unfold ret at 1. cbv beta iota. unfold bind, analyze_image.
    cbn [truthy nonempty negb].
    destruct (starts_with (lit "http") (c :: s)) eqn:P; cbn [negb].
    + right. reflexivity.
    + left. eexists. split; reflexivity.
  - destruct l; [left; eexists; split | right]; try reflexivity.
    cbn [truthy nonempty_list negb]. unfold bind at 1. unfold print_title.
    rewrite Ht. reflexivity.
  - destruct d; [left; eexists; split | right]; try reflexivity.
    cbn [truthy nonempty_list negb]. unfold bind at 1. unfold print_title.
    rewrite Ht. reflexivity.
Qed.

End EnrichmentFacts.

Section LoggedRun.

Variable vision : str -> bool * dict.
Variable service : str.

(** X21. A record with an image URL and a title that cannot be sliced (a
    number, a boolean, [None]) stops the run with an exception at the
    progress line, before any call to the vision service. *)
Theorem unsliceable_title_stops_run campaign rest calls :
  truthy (dict_get_default (lit "image_url") (PStr []) campaign) = true ->
  title_sliceable campaign = false ->
  process_campaigns_logged vision service (campaign :: rest) calls
  = (calls, Raise (lit "TypeError")).
Proof.
  intros Hi Ht. cbn [process_campaigns_logged]. unfold bind at 1.
  unfold process_campaign_logged. rewrite Hi. cbn [negb].
  unfold bind at 1, print_title. rewrite Ht. reflexivity.
Qed.

(** X20. For a record whose title can be sliced, an image URL that does
    not begin with [http] is marked invalid without a call to the vision
    service, whatever the service, and the run goes on. *)
Theorem non_http_image_marked_invalid campaign s calls :
  title_sliceable campaign = true ->
  dict_get_default (lit "image_url") (PStr []) campaign = PStr s ->
  nonempty s = true -> starts_with (lit "http") s = false ->
  process_campaign_logged vision service campaign calls
  = (calls, Ok (dict_set (lit "image_analysis") invalid_url_result campaign)).
Proof.
  intros Ht E Hn Hp. unfold process_campaign_logged. rewrite E.
  cbn [truthy]. rewrite Hn. cbn [negb]. unfold bind at 1. unfold print_title.
  rewrite Ht. unfold ret at 1. cbv beta iota. unfold bind, analyze_image.
  cbn [truthy]. rewrite Hn, Hp. reflexivity.
Qed.

End LoggedRun.

Section LoggedServices.

Variable vision : str -> bool * dict.

(** X18. With the service ['google'] and records whose [image_url] is text (or
    missing, or [None]) and whose title can be sliced, a run never raises:
    every record comes back, in order, with an [image_analysis] added and
    nothing else changed, and the vision service is called once for each
    record whose image URL begins with [http], in order, and for no
    other. *)
Theorem google_run_calls_http_images campaigns calls :
  Forall (fun c => image_url_is_text c = true) campaigns ->
  Forall (fun c => title_sliceable c = true) campaigns ->
  exists enriched,
    process_campaigns_logged vision (lit "google") campaigns calls
    = (calls ++ sent_urls campaigns, Ok enriched) /\
    Forall2 (fun c c' => exists analysis,
               c' = dict_set (lit "image_analysis") analysis c)
            campaigns enriched.
Proof.
  revert calls. induction campaigns as [|c cs IH]; intros calls Hi Ht.
  - exists []. simpl. rewrite app_nil_r. split; [reflexivity | constructor].
  - inversion Hi as [|? ? Hc Hcs]; subst.
    inversion Ht as [|? ? Htc Htcs]; subst.
    destruct (process_campaign_google vision c calls Hc Htc) as (a & Ea).
    destruct (IH (calls ++ sent_urls [c]) Hcs Htcs) as (enriched & Ee & F2).
    exists (dict_set (lit "image_analysis") a c :: enriched).
    cbn [process_campaigns_logged]. unfold bind at 1. rewrite Ea.
    unfold bind at 1. rewrite Ee. split.
    + unfold ret. f_equal. rewrite <- app_assoc. f_equal.
      unfold sent_urls. cbn [flat_map]. now rewrite app_nil_r.
    + constructor; [now exists a | assumption].
Qed.

(** X19. With the service ['azure'] and records whose title can be sliced,
    a run raises [AttributeError] as soon as a record has an image URL
    that begins with [http] -- the class has no [analyze_image_azure] --
    and the vision service is never called. *)
Theorem azure_run_raises campaigns calls :
  Forall (fun c => title_sliceable c = true) campaigns ->
  Exists (fun c => http_image c = true) campaigns ->
  process_campaigns_logged vision (lit "azure") campaigns calls
  = (calls, Raise (lit "AttributeError")).
Proof.
  revert calls. induction campaigns as [|c cs IH]; intros calls Ht He.
  - inversion He.
  - inversion Ht as [|? ? Htc Htcs]; subst.
    cbn [process_campaigns_logged]. unfold bind at 1.
    destruct (process_campaign_azure vision c calls Htc) as [(c' & -> & Hc) | ->];
      [|reflexivity].
    unfold bind at 1.
    inversion He as [? ? Hh|? ? He']; subst; [congruence|].
    now rewrite (IH calls Htcs He').
Qed.

End LoggedServices.

Lemma google_run_calls_http_images_witness :
  exists enriched,
    process_campaigns_logged (fun _ => (true, [])) (lit "google")
      [no_image_campaign; http_campaign; relative_image_campaign] []
    = ([] ++ sent_urls [no_image_campaign; http_campaign; relative_image_campaign],
       Ok enriched) /\
    Forall2 (fun c c' => exists analysis,
               c' = dict_set (lit "image_analysis") analysis c)
            [no_image_campaign; http_campaign; relative_image_campaign] enriched.
Proof.
  apply (@google_run_calls_http_images (fun _ => (true, []))); repeat constructor.
Defined.

Example google_run_sent :
  sent_urls [no_image_campaign; http_campaign; relative_image_campaign]
  = [lit "https://images.gofundme.com/b.jpg"].
Proof. reflexivity. Qed.

Lemma azure_run_raises_witness :
  process_campaigns_logged (fun _ => (true, [])) (lit "azure")
    [no_image_campaign; http_campaign] []
  = ([], Raise (lit "AttributeError")).
Proof.
  apply (@azure_run_raises (fun _ => (true, []))).
  - repeat constructor.
  - apply Exists_cons_tl. apply Exists_cons_hd. reflexivity.
Defined.

Lemma non_http_image_marked_invalid_witness :
  process_campaign_logged (fun _ => (true, [])) (lit "google")
    relative_image_campaign []
  = ([], Ok (dict_set (lit "image_analysis") invalid_url_result
               relative_image_campaign)).
Proof.
  apply (@non_http_image_marked_invalid (fun _ => (true, [])) (lit "google")
           relative_image_campaign (lit "/static/c.jpg")); reflexivity.
Defined.

Lemma unsliceable_title_stops_run_witness :
  process_campaigns_logged (fun _ => (true, [])) (lit "google")
    [null_title_campaign; http_campaign] []
  = ([], Raise (lit "TypeError")).
Proof.
  apply (@unsliceable_title_stops_run (fun _ => (true, [])) (lit "google")
           null_title_campaign [http_campaign] []); reflexivity.
Defined.

(** ** More on canonical URLs *)

Lemma rstrip_slashes u k :
  rstrip_by (chr_eqb slash) (u ++ repeat slash k) = rstrip_by (chr_eqb slash) u.
Proof.
  induction k as [|k IH]; [now rewrite app_nil_r|].
  cbn [repeat]. rewrite (repeat_cons k slash), app_assoc, rstrip_by_snoc by reflexivity.
  exact IH.
Qed.

(** X1. Any number of trailing slashes, with or without a query string after
    them, is stripped: all these variants of a canonical URL [u] give [u]. *)
Theorem clean_url_slashes_and_query (u q : str) (k : nat) :
  no_query u -> no_trailing_slash u ->
  clean_url (u ++ repeat slash k) = u /\
  clean_url (u ++ repeat slash k ++ qmark :: q) = u.
Proof.
  intros Hq Hs.
  assert (Hn : ~ In qmark (u ++ repeat slash k)).
  { intros H. apply in_app_or in H. destruct H as [H|H]; [now apply Hq|].
    apply repeat_spec in H. discriminate H. }
  unfold clean_url. split.
  - rewrite split_head_no_sep by exact Hn. rewrite rstrip_slashes.
    now apply no_trailing_slash_fixed.
  - rewrite app_assoc, split_head_app_sep by exact Hn. rewrite rstrip_slashes.
    now apply no_trailing_slash_fixed.
Qed.

Lemma clean_url_slashes_and_query_witness :
  let u := lit "https://www.gofundme.com/f/help-max" in
  clean_url (u ++ repeat slash 2) = u /\
  clean_url (u ++ repeat slash 2 ++ qmark :: lit "member=1&utm=x") = u.
Proof.
  intros u.
  apply clean_url_slashes_and_query;
    [apply no_query_check | apply no_trailing_slash_check]; reflexivity.
Defined.

Lemma extract_all_details_quiet_witness :
  extract_all_details (fun _ _ => None) (fun _ => Quiet) 0 three_urls []
  = ([] ++ details_of (fun _ _ => None) 0 three_urls, false).
Proof.
  apply (@extract_all_details_quiet (fun _ _ => None) (fun _ => Quiet) three_urls 0 []).
  reflexivity.
Defined.
